(** * iwgtk: the DBus helpers of [utilities.c]

    A shallow embedding of [validation_callback], [set_remote_property],
    [set_remote_property_callback], [lookup_property] and [send_notification]
    from [src/utilities.c], together with the part of GLib/GIO they call.

    The C functions return [void] and act on the outside world (the DBus
    connection, [stderr], the notification daemon, the C heap).  They are
    embedded in a state monad over a [World] that records these actions in
    the order in which they happen. *)

From stdpp Require Import base strings list gmap.

Local Open Scope Z_scope.

(** ** GLib values *)

Module GLib.

(** The numeric basic types of the DBus type system, by type character:
    y, n, q, i, u, x, t. *)
Inductive NumKind := Byte | Int16 | Uint16 | Int32 | Uint32 | Int64 | Uint64.

(** [GVariant]: an immutable tagged value.  The constructors cover the value
    kinds that iwd's objects exchange (b, the integers, s, o, v, arrays,
    tuples and dictionary entries).  An array records its element type
    signature, since two empty arrays of different types are different
    values. *)
#[local] Unset Elimination Schemes.
Inductive GVariant :=
| VBoolean (b : bool)
| VNumber (k : NumKind) (n : Z)
| VString (s : string)
| VObjectPath (s : string)
| VVariant (v : GVariant)
| VArray (elem : string) (items : list GVariant)
| VTuple (items : list GVariant)
| VDictEntry (key value : GVariant).
#[local] Set Elimination Schemes.

#[global] Instance NumKind_eq_dec : EqDecision NumKind.
Proof. solve_decision. Defined.

(** Same type and same value: the comparison that [g_variant_equal] performs
    on two (non-NULL) values. *)
Fixpoint variant_eqb (one two : GVariant) {struct one} : bool :=
  let fix all_eqb (xs ys : list GVariant) {struct xs} : bool :=
    match xs, ys with
    | [], [] => true
    | x :: xs', y :: ys' => variant_eqb x y && all_eqb xs' ys'
    | _, _ => false
    end in
  match one, two with
  | VBoolean a, VBoolean b => bool_decide (a = b)
  | VNumber k a, VNumber l b => bool_decide (k = l) && bool_decide (a = b)
  | VString a, VString b => bool_decide (a = b)
  | VObjectPath a, VObjectPath b => bool_decide (a = b)
  | VVariant a, VVariant b => variant_eqb a b
  | VArray s xs, VArray t ys => bool_decide (s = t) && all_eqb xs ys
  | VTuple xs, VTuple ys => all_eqb xs ys
  | VDictEntry k v, VDictEntry l w => variant_eqb k l && variant_eqb v w
  | _, _ => false
  end.

(** The list comparison nested in [variant_eqb], as a function of its own. *)
Fixpoint variants_eqb (xs ys : list GVariant) : bool :=
  match xs, ys with
  | [], [] => true
  | x :: xs', y :: ys' => variant_eqb x y && variants_eqb xs' ys'
  | _, _ => false
  end.

(** Induction over [GVariant] that reaches the items of arrays and tuples. *)
Section GVariant_induction.
Variable P : GVariant -> Prop.
Hypothesis Hbool : forall b, P (VBoolean b).
Hypothesis Hnum : forall k n, P (VNumber k n).
Hypothesis Hstr : forall s, P (VString s).
Hypothesis Hpath : forall s, P (VObjectPath s).
Hypothesis Hvar : forall v, P v -> P (VVariant v).
Hypothesis Harr : forall s items, Forall P items -> P (VArray s items).
Hypothesis Htup : forall items, Forall P items -> P (VTuple items).
Hypothesis Hent : forall k v, P k -> P v -> P (VDictEntry k v).

Fixpoint GVariant_ind (v : GVariant) : P v :=
  let fix all (items : list GVariant) : Forall P items :=
    match items with
    | [] => @List.Forall_nil _ P
    | x :: items' => @List.Forall_cons _ P x items' (GVariant_ind x) (all items')
    end in
  match v with
  | VBoolean b => Hbool b
  | VNumber k n => Hnum k n
  | VString s => Hstr s
  | VObjectPath s => Hpath s
  | VVariant v' => Hvar v' (GVariant_ind v')
  | VArray s items => Harr s items (all items)
  | VTuple items => Htup items (all items)
  | VDictEntry k v' => Hent k v' (GVariant_ind k) (GVariant_ind v')
  end.
End GVariant_induction.

(** [GError]: the error a failed call reports. *)
Record GError := {
  err_domain : Z;        (* GQuark domain *)
  err_code : Z;          (* gint code *)
  err_message : string   (* the text *)
}.

(** What [g_dbus_proxy_call_finish] finds in a [GAsyncResult]: either the
    reply of the method (a non-NULL [GVariant]) or NULL with [*error] set. *)
Inductive GAsyncResult :=
| Reply (ret : GVariant)
| Failed (err : GError).

(** A [GDBusProxy], as far as these helpers read it: the interface it was
    created for and its cache of property values. *)
Record GDBusProxy := {
  interface_name : string;
  cached_properties : gmap string GVariant
}.

(** [GNotificationPriority]. *)
Inductive GNotificationPriority :=
| G_NOTIFICATION_PRIORITY_NORMAL
| G_NOTIFICATION_PRIORITY_LOW
| G_NOTIFICATION_PRIORITY_HIGH
| G_NOTIFICATION_PRIORITY_URGENT.

(** A [GNotification] as [send_notification] builds it. *)
Record GNotification := {
  title : string;
  body : string;
  priority : GNotificationPriority
}.

(** [GVariantIter]: the children that are still to be visited; [None] is an
    iterator that [g_variant_iter_init] left uninitialised. *)
Definition GVariantIter := option (list GVariant).

(** The children [g_variant_iter_init] iterates over; a value that is not a
    container has none to offer. *)
Definition children (value : GVariant) : option (list GVariant) :=
  match value with
  | VVariant v => Some [v]
  | VArray _ items => Some items
  | VTuple items => Some items
  | VDictEntry k v => Some [k; v]
  | _ => None
  end.

(** The dictionary entry [{sv}] that binds [key] to [value]. *)
Definition entry_sv (kv : string * GVariant) : GVariant :=
  VDictEntry (VString kv.1) (VVariant kv.2).

(** The dictionary [a{sv}] with the given entries, in order. *)
Definition dict_sv (entries : list (string * GVariant)) : GVariant :=
  VArray "{sv}" (entry_sv <$> entries).

End GLib.
Export GLib.

(** ** Declarations of [iwgtk.h] *)

(** A [gpointer] that the helpers only pass on: an address. *)
Definition gpointer := Z.

(** Modelled from the spec: the typedef [SetFunction] of [iwgtk.h], a header
    that is not available.  The "zero-argument callback" of the
    failure-recovery action, a pointer to a function from [gpointer] to
    [void]; it is kept as the designator of the function it points to. *)
Definition SetFunction := positive.

(** Modelled from the spec: the struct [FailureClosure] of [iwgtk.h], a
    header that is not available.  The PendingWrite: "property name, a
    failure-recovery action (a callback plus opaque context), and nothing
    else"; the fields are the ones [set_remote_property] assigns. *)
Record FailureClosure := {
  callback : SetFunction;
  data : gpointer;
  property : string
}.

(** Modelled from the spec: the struct [ErrorMessage] of [iwgtk.h], a header
    that is not available.  One "(code -> message)" pair of an error table;
    the fields are the ones [validation_callback] reads, and the message, a
    pointer, may be NULL. *)
Record ErrorMessage := {
  code : Z;
  message : option string
}.

(** Modelled from the spec: the struct [CallbackMessages] of [iwgtk.h], a
    header that is not available.  The messages of a "fire and report" call;
    each field is a pointer that [validation_callback] tests against NULL.
    The error table is the array [error_table] points to, up to the end of
    the array object. *)
Record CallbackMessages := {
  success : option string;
  failure : option string;
  error_table : option (list ErrorMessage)
}.

(** Modelled from the spec: the struct of the variable [global] of
    [iwgtk.h], a header that is not available.  The "notification-enable
    flag and application handle", and the error domain of iwd that
    [validation_callback] compares with. *)
Record GlobalData := {
  notifications_disable : bool;
  iwd_error_domain : Z;
  application : gpointer
}.

(** ** The world the helpers act on *)

(** The completion handler that this file hands to [g_dbus_proxy_call] as
    [GAsyncReadyCallback], by the function it points to. *)
Inductive GAsyncReadyCallback :=
| on_set_remote_property_callback.

(** The arguments of one [g_dbus_proxy_call]. *)
Record MethodCall := {
  call_proxy : GDBusProxy;
  method_name : string;
  parameters : GVariant;
  flags : Z;
  timeout_msec : Z;
  cancellable : option gpointer;
  ready_callback : GAsyncReadyCallback;
  user_data : positive
}.

Definition G_DBUS_CALL_FLAGS_NONE : Z := 0.

(** What the helpers do, one event per library call that acts on the
    outside or whose arguments matter to it. *)
Inductive Event :=
| EvCritical (origin : string)               (* g_return_if_fail tripped *)
| EvVariantEqual (one two : option GVariant)  (* g_variant_equal (one, two) *)
| EvVariantUnref (value : GVariant)
| EvFree (text : string)                      (* g_free of a string *)
| EvErrorFree (err : GError)
| EvProxyCall (call : MethodCall)
| EvStderr (text : string)
| EvInvoke (f : SetFunction) (arg : gpointer)
| EvNotification (n : GNotification).

Record World := {
  global : GlobalData;
  heap : gmap positive FailureClosure;   (* the live [FailureClosure] blocks *)
  events : list Event                     (* oldest first *)
}.

(** Behaviour that C leaves undefined. *)
Inductive UB :=
| OutOfBounds        (* a read past the end of an array *)
| InvalidPointer     (* a block that is not live is read or freed *)
| Uninitialised.     (* an automatic variable is used before it is set *)

(** How a run of a function ends: it returns [a] and leaves the world [w],
    it runs into undefined behaviour, or the fuel given to one of its loops
    is used up before the loop ends. *)
Inductive outcome (A : Type) :=
| Returns (a : A) (w : World)
| Undefined (why : UB)
| OutOfFuel.
Arguments Returns {A} a w.
Arguments Undefined {A} why.
Arguments OutOfFuel {A}.

(** A C function with result type [A]. *)
Definition M (A : Type) : Type := World -> outcome A.

#[global] Instance M_ret : MRet M := fun A a w => Returns a w.
#[global] Instance M_bind : MBind M := fun A B f m w =>
  match m w with
  | Returns a w' => f a w'
  | Undefined why => Undefined why
  | OutOfFuel => OutOfFuel
  end.

Definition undefined {A} (why : UB) : M A := fun _ => Undefined why.
Definition out_of_fuel {A} : M A := fun _ => OutOfFuel.
Definition emit (e : Event) : M unit := fun w =>
  Returns tt {| global := global w; heap := heap w; events := events w ++ [e] |}.
Definition read_global : M GlobalData := fun w => Returns (global w) w.

(** [malloc (sizeof (FailureClosure))] followed by the assignments to the
    fields: a block that was not live becomes live and holds [c].
    (Exhaustion of memory is not modelled.) *)
Definition malloc (c : FailureClosure) : M positive := fun w =>
  let p := fresh (dom (heap w)) in
  Returns p {| global := global w; heap := <[p := c]> (heap w); events := events w |}.

(** Reading through a [FailureClosure *]. *)
Definition deref (p : positive) : M FailureClosure := fun w =>
  match heap w !! p with
  | Some c => Returns c w
  | None => Undefined InvalidPointer
  end.

(** [free (p)]. *)
Definition free (p : positive) : M unit := fun w =>
  match heap w !! p with
  | Some _ => Returns tt {| global := global w; heap := delete p (heap w); events := events w |}
  | None => Undefined InvalidPointer
  end.

(** ** The GLib and libc calls of [utilities.c] *)

(** The line feed, character 10. *)
Definition newline : string :=
  String (Ascii.Ascii false true false true false false false false) "".

(** [g_return_if_fail]: the check of an argument fails, GLib logs a critical
    warning and the library function returns at once. *)
Definition g_return_if_fail (origin : string) : M unit := emit (EvCritical origin).

(** [g_dbus_proxy_get_cached_property]: the cached value, or NULL when the
    cache has none for the property. *)
Definition g_dbus_proxy_get_cached_property (proxy : GDBusProxy) (property_name : string)
  : M (option GVariant) :=
  mret (cached_properties proxy !! property_name).

Definition g_dbus_proxy_get_interface_name (proxy : GDBusProxy) : M string :=
  mret (interface_name proxy).

(** [g_variant_equal]: both operands are checked against NULL
    ([g_return_val_if_fail (one != NULL && two != NULL, FALSE)]) and then
    compared by type and value. *)
Definition g_variant_equal (one two : option GVariant) : M bool :=
  emit (EvVariantEqual one two);;
  match one, two with
  | Some a, Some b => mret (variant_eqb a b)
  | _, _ => g_return_if_fail "g_variant_equal";; mret false
  end.

(** [g_variant_unref], with its check [g_return_if_fail (value != NULL)]. *)
Definition g_variant_unref (value : option GVariant) : M unit :=
  match value with
  | Some v => emit (EvVariantUnref v)
  | None => g_return_if_fail "g_variant_unref"
  end.

Definition g_free (text : string) : M unit := emit (EvFree text).
Definition g_error_free (err : GError) : M unit := emit (EvErrorFree err).
Definition fprintf_stderr (text : string) : M unit := emit (EvStderr text).

(** [g_dbus_proxy_call]: the call is sent; its completion is reported later,
    from the main loop, to [callback] with [user_data]. *)
Definition g_dbus_proxy_call (proxy : GDBusProxy) (method : string) (params : GVariant)
    (call_flags timeout : Z) (cancel : option gpointer)
    (callback : GAsyncReadyCallback) (closure : positive) : M unit :=
  emit (EvProxyCall {| call_proxy := proxy; method_name := method; parameters := params;
                       flags := call_flags; timeout_msec := timeout; cancellable := cancel;
                       ready_callback := callback; user_data := closure |}).

(** A call through a [SetFunction].  What the function of the caller does is
    outside this file; the call and its argument are recorded. *)
Definition invoke (f : SetFunction) (arg : gpointer) : M unit := emit (EvInvoke f arg).

(** ** [utilities.c] *)

(** [send_notification] *)
Definition send_notification (text : string) (prio : GNotificationPriority) : M unit :=
  g ← read_global;
  if negb (notifications_disable g) then
    emit (EvNotification {| title := "iwgtk"; body := text; priority := prio |})
  else mret tt.

(** The test of one table entry in [validation_callback]:
    [(err->domain == global.iwd_error_domain && code == err->code) || code == 0]. *)
Definition entry_stops (g : GlobalData) (err : GError) (entry : ErrorMessage) : bool :=
  (bool_decide (err_domain err = iwd_error_domain g) && bool_decide (code entry = err_code err))
  || bool_decide (code entry = 0).

(** How the [while (TRUE)] loop of [validation_callback] ends.  [reads] lists
    the indices [i] at which [error_table[i]] was read, oldest first. *)
Inductive scan_result :=
| Stopped (detailed : option string) (reads : list nat)   (* break *)
| PastEnd (reads : list nat)      (* the next read is outside the array *)
| StillScanning (reads : list nat).   (* the fuel ran out *)

(** The loop of [validation_callback], from index [i] on; one unit of fuel per
    iteration.  The index is a C [int]; the error tables are short constant
    arrays, and [i] is kept as a natural number. *)
Fixpoint error_table_scan (fuel : nat) (g : GlobalData) (err : GError)
    (table : list ErrorMessage) (i : nat) (reads : list nat) : scan_result :=
  match fuel with
  | O => StillScanning reads
  | S fuel' =>
      match table !! i with
      | None => PastEnd reads
      | Some entry =>
          if entry_stops g err entry
          then Stopped (message entry) (reads ++ [i])
          else error_table_scan fuel' g err table (S i) (reads ++ [i])
      end
  end.

(** [validation_callback] *)
Definition validation_callback (fuel : nat) (proxy : GDBusProxy) (res : GAsyncResult)
    (messages : option CallbackMessages) : M unit :=
  match (* ret = g_dbus_proxy_call_finish (proxy, res, &err) *) res with
  | Reply ret =>
      g_variant_unref (Some ret);;
      match messages with
      | Some m =>
          match success m with
          | Some text => send_notification text G_NOTIFICATION_PRIORITY_NORMAL
          | None => mret tt
          end
      | None => mret tt
      end
  | Failed err =>
      match messages with
      | Some m =>
          match failure m with
          | Some failure_text =>
              detailed ←
                match error_table m with
                | Some table =>
                    g ← read_global;
                    match error_table_scan fuel g err table 0%nat [] with
                    | Stopped detailed _ => mret detailed
                    | PastEnd _ => undefined OutOfBounds
                    | StillScanning _ => out_of_fuel
                    end
                | None => mret None
                end;
              match detailed with
              | Some detail =>
                  let message_text := failure_text +:+ ": " +:+ detail in
                  send_notification message_text G_NOTIFICATION_PRIORITY_NORMAL;;
                  g_free message_text
              | None => send_notification failure_text G_NOTIFICATION_PRIORITY_NORMAL
              end
          | None => mret tt
          end
      | None => mret tt
      end;;
      fprintf_stderr (err_message err +:+ newline);;
      g_error_free err
  end.

(** [set_remote_property_callback] *)
Definition set_remote_property_callback (proxy : GDBusProxy) (res : GAsyncResult)
    (failure : positive) : M unit :=
  match (* ret = g_dbus_proxy_call_finish (proxy, res, &err) *) res with
  | Reply ret => g_variant_unref (Some ret)
  | Failed err =>
      closure ← deref failure;
      fprintf_stderr ("Error setting remote property '" +:+ property closure +:+ "': "
                      +:+ err_message err +:+ newline);;
      g_error_free err;;
      closure ← deref failure;
      invoke (callback closure) (data closure)
  end;;
  free failure.

(** [set_remote_property] *)
Definition set_remote_property (proxy : GDBusProxy) (property : string) (value : GVariant)
    (failure_callback : SetFunction) (failure_data : gpointer) : M unit :=
  value_cached ← g_dbus_proxy_get_cached_property proxy property;
  equal ← g_variant_equal (Some value) value_cached;
  (if negb equal then
     failure_closure ← malloc {| callback := failure_callback; data := failure_data;
                                 property := property |};
     iface ← g_dbus_proxy_get_interface_name proxy;
     g_dbus_proxy_call proxy "org.freedesktop.DBus.Properties.Set"
       (VTuple [VString iface; VString property; VVariant value])
       G_DBUS_CALL_FLAGS_NONE (-1) None
       on_set_remote_property_callback failure_closure
   else g_variant_unref (Some value));;
  g_variant_unref value_cached.

(** [g_variant_iter_init]: the iterator is set up over the children of a
    container; for any other value the check
    [g_return_val_if_fail (g_variant_is_container (value), 0)] returns before
    the iterator is written. *)
Definition g_variant_iter_init (value : GVariant) : M GVariantIter :=
  match children value with
  | Some items => mret (Some items)
  | None => g_return_if_fail "g_variant_iter_init";; mret None
  end.

(** The loop of [lookup_property] over the children that the iterator has not
    visited yet.  Each round is one [g_variant_iter_next (&iter, "{sv}", &key,
    &value)]: at the end of the container it returns FALSE; it takes the next
    child, and returns FALSE as well (after a critical warning) when the
    child is not a [{sv}] entry.  The result comes with the children that
    were never taken from the iterator. *)
Fixpoint lookup_property_loop (property : string) (iter : list GVariant)
  : M (option GVariant * list GVariant) :=
  match iter with
  | [] => mret (None, [])
  | VDictEntry (VString key) (VVariant value) :: iter' =>
      if bool_decide (property = key) (* strcmp (property, key) == 0 *) then
        g_free key;;
        mret (Some value, iter')
      else
        g_free key;;
        g_variant_unref (Some value);;
        lookup_property_loop property iter'
  | _ :: iter' =>
      g_return_if_fail "g_variant_iter_next";;
      mret (None, iter')
  end.

(** [lookup_property] *)
Definition lookup_property (dictionary : GVariant) (property : string) : M (option GVariant) :=
  iter ← g_variant_iter_init dictionary;
  match iter with
  | Some items =>
      r ← lookup_property_loop property items;
      mret r.1
  | None => undefined Uninitialised
  end.

(** The main loop reports the completion of [call] with the result [res]: it
    calls the handler that was registered, with the proxy and the user data
    of the call. *)
Definition complete (call : MethodCall) (res : GAsyncResult) : M unit :=
  match ready_callback call with
  | on_set_remote_property_callback =>
      set_remote_property_callback (call_proxy call) res (user_data call)
  end.

(** ** Observations on a run *)

(** [w] after the events [new] have happened, the heap unchanged. *)
Definition with_events (w : World) (new : list Event) : World :=
  {| global := global w; heap := heap w; events := events w ++ new |}.

(** The remote calls among the events. *)
Definition remote_calls (evs : list Event) : list MethodCall :=
  omap (fun e => match e with EvProxyCall c => Some c | _ => None end) evs.

(** The calls of recovery callbacks, each with its argument. *)
Definition invocations (evs : list Event) : list (SetFunction * gpointer) :=
  omap (fun e => match e with EvInvoke f a => Some (f, a) | _ => None end) evs.

(** What was written to [stderr], one text per [fprintf]. *)
Definition stderr_output (evs : list Event) : list string :=
  omap (fun e => match e with EvStderr t => Some t | _ => None end) evs.

(** The notifications handed to the desktop. *)
Definition notifications (evs : list Event) : list GNotification :=
  omap (fun e => match e with EvNotification n => Some n | _ => None end) evs.

(** The library functions whose argument checks failed. *)
Definition criticals (evs : list Event) : list string :=
  omap (fun e => match e with EvCritical o => Some o | _ => None end) evs.

(** The values whose reference was dropped. *)
Definition released (evs : list Event) : list GVariant :=
  omap (fun e => match e with EvVariantUnref v => Some v | _ => None end) evs.

(** The events of [lookup_property] for the entries it passes over. *)
Definition skipped (entries : list (string * GVariant)) : list Event :=
  entries ≫= fun kv => [EvFree kv.1; EvVariantUnref kv.2].

(** The line that [set_remote_property_callback] prints. *)
Definition set_error_line (property : string) (err : GError) : string :=
  "Error setting remote property '" +:+ property +:+ "': " +:+ err_message err +:+ newline.

(** [part] occurs in [text]. *)
Definition contains (text part : string) : Prop :=
  exists pre post, text = pre +:+ part +:+ post.


(** The closure [set_remote_property] builds. *)
Definition closure_of (failure_callback : SetFunction) (failure_data : gpointer)
    (property : string) : FailureClosure :=
  {| callback := failure_callback; data := failure_data; property := property |}.

(** The call [set_remote_property] issues when the closure is at [p]. *)
Definition set_call (proxy : GDBusProxy) (property : string) (value : GVariant)
    (p : positive) : MethodCall :=
  {| call_proxy := proxy;
     method_name := "org.freedesktop.DBus.Properties.Set";
     parameters := VTuple [VString (interface_name proxy); VString property; VVariant value];
     flags := G_DBUS_CALL_FLAGS_NONE;
     timeout_msec := -1;
     cancellable := None;
     ready_callback := on_set_remote_property_callback;
     user_data := p |}.

(** What [validation_callback] does on a failed call once the scan of the
    table has stopped with [detailed]. *)
Definition failure_events (g : GlobalData) (prefix : string) (detailed : option string)
    (err : GError) : list Event :=
  match detailed with
  | Some detail =>
      (if notifications_disable g then []
       else [EvNotification {| title := "iwgtk"; body := prefix +:+ ": " +:+ detail;
                               priority := G_NOTIFICATION_PRIORITY_NORMAL |}])
      ++ [EvFree (prefix +:+ ": " +:+ detail)]
  | None =>
      if notifications_disable g then []
      else [EvNotification {| title := "iwgtk"; body := prefix;
                              priority := G_NOTIFICATION_PRIORITY_NORMAL |}]
  end ++ [EvStderr (err_message err +:+ newline); EvErrorFree err].

(** ** Sample data *)

Definition sample_global : GlobalData :=
  {| notifications_disable := false; iwd_error_domain := 7; application := 0 |}.

Definition sample_world : World :=
  {| global := sample_global; heap := ∅; events := [] |}.

Definition sample_proxy : GDBusProxy :=
  {| interface_name := "net.connman.iwd.Device";
     cached_properties := {[ "Powered" := VBoolean true ]} |}.

(** A table whose sentinel has no message. *)
Definition sample_table : list ErrorMessage :=
  [ {| code := 1; message := Some "Operation already in progress" |};
    {| code := 2; message := Some "Operation failed" |};
    {| code := 0; message := None |} ].

(** A table whose sentinel supplies a default message. *)
Definition sample_table_default : list ErrorMessage :=
  [ {| code := 1; message := Some "Operation already in progress" |};
    {| code := 0; message := Some "Unknown error" |} ].

Definition sample_messages (table : list ErrorMessage) : CallbackMessages :=
  {| success := Some "Connected"; failure := Some "Connection failed";
     error_table := Some table |}.

(** A world in which the write of [Powered := false] is pending, its closure
    at address 1. *)
Definition sample_pending : World :=
  {| global := sample_global;
     heap := {[ 1%positive := closure_of 5%positive 42 "Powered" ]};
     events := [] |}.

(** What the completion of a write does when its closure is [c]. *)
Definition completion_events (c : FailureClosure) (res : GAsyncResult) : list Event :=
  match res with
  | Reply ret => [EvVariantUnref ret]
  | Failed err => [EvStderr (set_error_line (property c) err); EvErrorFree err;
                   EvInvoke (callback c) (data c)]
  end.

(** The strings handed to [g_free]. *)
Definition freed (evs : list Event) : list string :=
  omap (fun e => match e with EvFree t => Some t | _ => None end) evs.

(** An error of the iwd domain with the code of the second entry of
    [sample_table]. *)
Definition sample_error : GError :=
  {| err_domain := 7; err_code := 2; err_message := "Operation failed" |}.

(** [sample_world] after [validation_callback] has reported [sample_error]
    with the messages of [sample_table]. *)
Definition sample_reported : World :=
  with_events sample_world
    [EvNotification {| title := "iwgtk"; body := "Connection failed: Operation failed";
                       priority := G_NOTIFICATION_PRIORITY_NORMAL |};
     EvFree "Connection failed: Operation failed";
     EvStderr ("Operation failed" +:+ newline);
     EvErrorFree sample_error].

(** A table that lacks the sentinel. *)
Definition sample_table_open : list ErrorMessage :=
  [ {| code := 1; message := Some "Operation already in progress" |};
    {| code := 2; message := Some "Operation failed" |} ].

(** ** [validation_callback_log] *)

Section Logging.
(** The text that [fprintf (stderr, format, s)] writes, for the formats and
    strings on which [fprintf] is defined. *)
Variable vformat : string -> string -> string.

(** [validation_callback_log] *)
Definition validation_callback_log (proxy : GDBusProxy) (res : GAsyncResult)
    (message : string) : M unit :=
  match (* ret = g_dbus_proxy_call_finish (proxy, res, &err) *) res with
  | Reply ret => g_variant_unref (Some ret)
  | Failed err =>
      fprintf_stderr (vformat message (err_message err));;
      g_error_free err
  end.
End Logging.

(** A formatter for the sample runs: the first [%s] of the format is
    replaced by the argument. *)
Fixpoint sample_format (format arg : string) : string :=
  match format with
  | String c (String d rest as tail) =>
      if decide (String c (String d "") = "%s") then arg +:+ rest
      else String c (sample_format tail arg)
  | short => short
  end.

(** ** The grid helper of [utilities.c] *)

(** [GtkAlign]. *)
Inductive GtkAlign :=
| GTK_ALIGN_FILL
| GTK_ALIGN_START
| GTK_ALIGN_END
| GTK_ALIGN_CENTER
| GTK_ALIGN_BASELINE.

(** [gtk_grid_get_child_at (grid, left, top)]: the child of the grid whose
    area covers the cell in column [left] and row [top], or NULL.  A grid is
    given by the cells that its children cover; a widget is named by its
    address. *)
Definition gtk_grid_get_child_at (grid : gmap (Z * Z) positive) (left top : Z)
  : option positive :=
  grid !! (left, top).

(** [gtk_widget_set_halign (widget, align)], on the horizontal alignments of
    the widgets. *)
Definition gtk_widget_set_halign (widget : positive) (align : GtkAlign)
    (halign : gmap positive GtkAlign) : gmap positive GtkAlign :=
  <[widget := align]> halign.

(** The loop of [grid_column_set_alignment] from row [i] on, one unit of fuel
    per test of the loop condition; [None] when the fuel is used up.  The row
    is a C [int] that starts at 0 and counts up; it is kept as a natural
    number. *)
Fixpoint grid_column_set_alignment_loop (fuel : nat) (grid : gmap (Z * Z) positive)
    (col : Z) (align : GtkAlign) (i : nat) (halign : gmap positive GtkAlign)
  : option (gmap positive GtkAlign) :=
  match fuel with
  | O => None
  | S fuel' =>
      match gtk_grid_get_child_at grid col (Z.of_nat i) with
      | Some cell =>
          grid_column_set_alignment_loop fuel' grid col align (S i)
            (gtk_widget_set_halign cell align halign)
      | None => Some halign
      end
  end.

(** [grid_column_set_alignment] *)
Definition grid_column_set_alignment (fuel : nat) (grid : gmap (Z * Z) positive)
    (col : Z) (align : GtkAlign) (halign : gmap positive GtkAlign)
  : option (gmap positive GtkAlign) :=
  grid_column_set_alignment_loop fuel grid col align 0 halign.

(** The widgets in the rows [i], ..., [i + n - 1] of column [col]. *)
Definition in_rows (grid : gmap (Z * Z) positive) (col : Z) (i n : nat) (widget : positive)
  : Prop :=
  exists j : nat, (i <= j < i + n)%nat /\ grid !! (col, Z.of_nat j) = Some widget.

(** A grid with two children on top of column 0, a free cell below them,
    one more child further down, and one child in column 1. *)
Definition sample_grid : gmap (Z * Z) positive :=
  {[ (0, 0) := 1%positive; (0, 1) := 2%positive; (0, 3) := 3%positive;
     (1, 0) := 4%positive ]}.

(** * Properties *)

(** ** Equality of values *)

Lemma variants_eqb_eq xs :
  Forall (fun x => forall y, variant_eqb x y = true <-> x = y) xs ->
  forall ys, variants_eqb xs ys = true <-> xs = ys.
Proof.
  induction 1 as [|x xs Hx _ IH]; intros [|y ys]; simpl;
    try (split; [discriminate | congruence]); [done |].
  split.
  - intros [Hxy Hrest]%andb_prop. apply Hx in Hxy. apply IH in Hrest. congruence.
  - intros [= -> ->]. apply andb_true_intro. split; [by apply Hx | by apply IH].
Qed.

Lemma variant_eqb_eq one two : variant_eqb one two = true <-> one = two.
Proof.
  revert two.
  induction one as [a|k a|a|a|a IH|s xs IH|xs IH|k v IHk IHv] using GVariant_ind;
    intros [b|l b|b|b|b|t ys|ys|l w];
    try (split; [discriminate | congruence]); simpl.
  - split; [intros H%bool_decide_eq_true; congruence | intros [= ->]; by apply bool_decide_eq_true].
  - split.
    + intros [H1%bool_decide_eq_true H2%bool_decide_eq_true]%andb_prop. congruence.
    + intros [= -> ->]. apply andb_true_intro. split; by apply bool_decide_eq_true.
  - split; [intros H%bool_decide_eq_true; congruence | intros [= ->]; by apply bool_decide_eq_true].
  - split; [intros H%bool_decide_eq_true; congruence | intros [= ->]; by apply bool_decide_eq_true].
  - split; [intros H%IH; congruence | intros [= ->]; by apply IH].
  - change (bool_decide (s = t) && variants_eqb xs ys = true <-> VArray s xs = VArray t ys).
    split.
    + intros [H1%bool_decide_eq_true H2]%andb_prop. apply (variants_eqb_eq xs IH) in H2. congruence.
    + intros [= -> ->]. apply andb_true_intro.
      split; [by apply bool_decide_eq_true | by apply (variants_eqb_eq ys IH)].
  - change (variants_eqb xs ys = true <-> VTuple xs = VTuple ys).
    split; [intros H%(variants_eqb_eq xs IH); congruence
           | intros [= ->]; by apply (variants_eqb_eq ys IH)].
  - split.
    + intros [H1%IHk H2%IHv]%andb_prop. congruence.
    + intros [= -> ->]. apply andb_true_intro. split; [by apply IHk | by apply IHv].
Qed.

Lemma variant_eqb_refl v : variant_eqb v v = true.
Proof. by apply variant_eqb_eq. Qed.

Lemma variant_eqb_neq one two : one <> two -> variant_eqb one two = false.
Proof.
  intros Hne. destruct (variant_eqb one two) eqn:E; [|done].
  by apply variant_eqb_eq in E.
Qed.

(** ** Running the helpers *)

Ltac run :=
  cbv [set_remote_property set_remote_property_callback complete validation_callback
       send_notification lookup_property
       g_dbus_proxy_get_cached_property g_dbus_proxy_get_interface_name g_variant_equal
       g_variant_unref g_free g_error_free fprintf_stderr g_dbus_proxy_call invoke
       g_variant_iter_init g_return_if_fail
       malloc deref free emit read_global undefined out_of_fuel with_events
       mbind M_bind mret M_ret]; cbn [global heap events].

Lemma set_remote_property_equal w proxy property value cb data :
  cached_properties proxy !! property = Some value ->
  set_remote_property proxy property value cb data w =
  Returns tt (with_events w [EvVariantEqual (Some value) (Some value);
                             EvVariantUnref value; EvVariantUnref value]).
Proof.
  intros Hc. run. rewrite Hc, variant_eqb_refl. cbn [negb global heap events].
  by rewrite <- !app_assoc.
Qed.

Lemma set_remote_property_changed w proxy property value cb data :
  cached_properties proxy !! property <> Some value ->
  let p := fresh (dom (heap w)) in
  let cached := cached_properties proxy !! property in
  set_remote_property proxy property value cb data w =
  Returns tt
    {| global := global w;
       heap := <[p := closure_of cb data property]> (heap w);
       events := events w ++
         EvVariantEqual (Some value) cached ::
         match cached with
         | Some c => [EvProxyCall (set_call proxy property value p); EvVariantUnref c]
         | None => [EvCritical "g_variant_equal";
                    EvProxyCall (set_call proxy property value p);
                    EvCritical "g_variant_unref"]
         end |}.
Proof.
  intros Hc p cached. subst p cached. run.
  destruct (cached_properties proxy !! property) as [c|] eqn:E.
  - assert (variant_eqb value c = false) as ->.
    { apply variant_eqb_neq. congruence. }
    cbn [negb global heap events]. by rewrite <- !app_assoc.
  - cbn [negb global heap events]. by rewrite <- !app_assoc.
Qed.

Lemma set_remote_property_callback_reply w proxy ret p c :
  heap w !! p = Some c ->
  set_remote_property_callback proxy (Reply ret) p w =
  Returns tt {| global := global w; heap := delete p (heap w);
                events := events w ++ [EvVariantUnref ret] |}.
Proof. intros Hp. run. by rewrite Hp. Qed.

Lemma set_remote_property_callback_failed w proxy err p c :
  heap w !! p = Some c ->
  set_remote_property_callback proxy (Failed err) p w =
  Returns tt {| global := global w; heap := delete p (heap w);
                events := events w ++ [EvStderr (set_error_line (property c) err);
                                       EvErrorFree err;
                                       EvInvoke (callback c) (data c)] |}.
Proof. intros Hp. run. rewrite !Hp. cbn [global heap events]. rewrite Hp.
  by rewrite <- !app_assoc. Qed.

(** A value that differs from the cached one is sent: the closure is put in
    a block that was free, and one call carries its address. *)
Lemma set_remote_property_issues w proxy property value cb data :
  cached_properties proxy !! property <> Some value ->
  exists p w1 new,
    heap w !! p = None /\
    set_remote_property proxy property value cb data w = Returns tt w1 /\
    global w1 = global w /\
    heap w1 = <[p := closure_of cb data property]> (heap w) /\
    events w1 = events w ++ new /\
    remote_calls new = [set_call proxy property value p] /\
    invocations new = [] /\ stderr_output new = [].
Proof.
  intros Hc. eexists _, _, _. split; [|split].
  2: { by apply set_remote_property_changed. }
  - apply (not_elem_of_dom (D := gset positive)), is_fresh.
  - cbn [global heap events]. repeat split.
    all: by destruct (cached_properties proxy !! property).
Qed.

(** ** [set_remote_property] *)

(** C1: every call of [set_remote_property] returns; it issues a remote call
    if and only if the proposed value differs from the cached value of the
    property, and then it issues exactly one call: the method
    "org.freedesktop.DBus.Properties.Set" on the proxy, with the interface
    name of the proxy, the property name and the proposed value. *)
Theorem set_remote_property_writes_iff_changed
    (w : World) (proxy : GDBusProxy) (property : string) (value : GVariant)
    (cb : SetFunction) (data : gpointer) :
  exists w' new,
    set_remote_property proxy property value cb data w = Returns tt w' /\
    events w' = events w ++ new /\
    (remote_calls new <> [] <-> cached_properties proxy !! property <> Some value) /\
    (remote_calls new = [] \/
     exists p, remote_calls new =
       [ {| call_proxy := proxy;
            method_name := "org.freedesktop.DBus.Properties.Set";
            parameters := VTuple [VString (interface_name proxy); VString property;
                                  VVariant value];
            flags := G_DBUS_CALL_FLAGS_NONE; timeout_msec := -1; cancellable := None;
            ready_callback := on_set_remote_property_callback; user_data := p |} ]).
Proof.
  destruct (cached_properties proxy !! property) as [c|] eqn:E.
  - destruct (variant_eqb value c) eqn:Eeq.
    + apply variant_eqb_eq in Eeq as <-.
      eexists _, _. split; [by apply set_remote_property_equal|].
      split; [reflexivity|]. split; [|by left]. split; intros H; by destruct H.
    + assert (Some c <> Some value) as Hne.
      { intros [= ->]. by rewrite variant_eqb_refl in Eeq. }
      rewrite <- E in Hne.
      destruct (set_remote_property_issues w proxy property value cb data Hne)
        as (p & w1 & new & _ & Hrun & _ & _ & Hev & Hcalls & _).
      exists w1, new. repeat split; try done.
      * by rewrite <- E.
      * by rewrite Hcalls.
      * right. by exists p.
  - assert (cached_properties proxy !! property <> Some value) as Hne by by rewrite E.
    destruct (set_remote_property_issues w proxy property value cb data Hne)
      as (p & w1 & new & _ & Hrun & _ & _ & Hev & Hcalls & _).
    exists w1, new. repeat split; try done.
    + by rewrite Hcalls.
    + right. by exists p.
Qed.

(** C2: when the proposed value equals the cached value of the property,
    [set_remote_property] returns after comparing the two and dropping its
    references to them: no remote call, no call of the failure callback,
    no closure allocated, and the proposed value is released. *)
Theorem set_remote_property_skips_equal_value
    (w : World) (proxy : GDBusProxy) (property : string) (value : GVariant)
    (cb : SetFunction) (data : gpointer) :
  cached_properties proxy !! property = Some value ->
  exists w' new,
    set_remote_property proxy property value cb data w = Returns tt w' /\
    events w' = events w ++ new /\
    heap w' = heap w /\
    new = [EvVariantEqual (Some value) (Some value); EvVariantUnref value; EvVariantUnref value] /\
    remote_calls new = [] /\
    invocations new = [] /\
    value ∈ released new.
Proof.
  intros Hc. eexists _, _. split; [by apply set_remote_property_equal|].
  cbn. repeat split. apply list_elem_of_here.
Qed.

(** C9: [set_remote_property] hands the proposed value and whatever the
    cache returned to [g_variant_equal], without a test for NULL in between.
    The argument check of the comparison fails exactly when the proxy has no
    cached value for the property; the second operand is NULL then. *)
Theorem set_remote_property_compares_unchecked
    (w : World) (proxy : GDBusProxy) (property : string) (value : GVariant)
    (cb : SetFunction) (data : gpointer) :
  exists w' rest,
    set_remote_property proxy property value cb data w = Returns tt w' /\
    events w' = events w ++
      EvVariantEqual (Some value) (cached_properties proxy !! property) :: rest /\
    ("g_variant_equal" ∈ criticals rest <-> cached_properties proxy !! property = None) /\
    (is_Some (cached_properties proxy !! property) -> criticals rest = []).
Proof.
  destruct (cached_properties proxy !! property) as [c|] eqn:E.
  - destruct (variant_eqb value c) eqn:Eeq.
    + apply variant_eqb_eq in Eeq as <-.
      eexists _, _. split; [by apply set_remote_property_equal|].
      cbn. split; [done|]. split; [|done].
      split; [by intros ?%elem_of_nil | done].
    + assert (cached_properties proxy !! property <> Some value) as Hne.
      { rewrite E. intros [= ->]. by rewrite variant_eqb_refl in Eeq. }
      eexists _, _. split; [by apply set_remote_property_changed|].
      cbn. rewrite E. split; [done|]. split; [|done].
      split; [by intros ?%elem_of_nil | done].
  - assert (cached_properties proxy !! property <> Some value) as Hne by by rewrite E.
    eexists _, _. split; [by apply set_remote_property_changed|].
    cbn. rewrite E. split; [done|]. split.
    + split; [done|]. intros _. apply list_elem_of_here.
    + by intros [? ?].
Qed.

(** ** Completion of a write *)

Lemma append_assoc (a b c : string) : (a +:+ b) +:+ c = a +:+ b +:+ c.
Proof.
  induction a as [|x a IH]; [reflexivity|].
  change (String x ((a +:+ b) +:+ c) = String x (a +:+ b +:+ c)). by rewrite IH.
Qed.

Lemma set_error_line_contains property err :
  contains (set_error_line property err) property /\
  contains (set_error_line property err) (err_message err).
Proof.
  split.
  - by exists "Error setting remote property '", ("': " +:+ err_message err +:+ newline).
  - exists ("Error setting remote property '" +:+ property +:+ "': "), newline.
    unfold set_error_line. by rewrite !append_assoc.
Qed.

Lemma set_remote_property_returns w proxy property value cb data :
  exists w1, set_remote_property proxy property value cb data w = Returns tt w1.
Proof.
  destruct (cached_properties proxy !! property) as [c|] eqn:E.
  - destruct (variant_eqb value c) eqn:Eeq.
    + apply variant_eqb_eq in Eeq as <-.
      eexists. by apply set_remote_property_equal.
    + eexists. apply set_remote_property_changed.
      rewrite E. intros [= ->]. by rewrite variant_eqb_refl in Eeq.
  - eexists. apply set_remote_property_changed. by rewrite E.
Qed.

(** C3: a write that was issued and fails is reported once.  Whatever
    happens between issue and completion, as long as the closure of the
    write is left alone, the completion calls the failure callback exactly
    once, with the context given to [set_remote_property], and prints
    exactly one line, which holds the property name and the message of the
    remote error. *)
Theorem failed_write_reports_once
    (w : World) (proxy : GDBusProxy) (property : string) (value : GVariant)
    (cb : SetFunction) (data : gpointer) (err : GError) :
  cached_properties proxy !! property <> Some value ->
  exists w1 new1 call,
    set_remote_property proxy property value cb data w = Returns tt w1 /\
    events w1 = events w ++ new1 /\
    remote_calls new1 = [call] /\
    forall w2, heap w2 !! user_data call = heap w1 !! user_data call ->
      exists w3 new,
        complete call (Failed err) w2 = Returns tt w3 /\
        events w3 = events w2 ++ new /\
        invocations new = [(cb, data)] /\
        stderr_output new =
          ["Error setting remote property '" +:+ property +:+ "': "
           +:+ err_message err +:+ newline] /\
        forall line, line ∈ stderr_output new ->
          contains line property /\ contains line (err_message err).
Proof.
  intros Hne.
  destruct (set_remote_property_issues w proxy property value cb data Hne)
    as (p & w1 & new1 & _ & Hrun & _ & Hheap & Hev & Hcalls & _).
  exists w1, new1, (set_call proxy property value p).
  split; [done|]. split; [done|]. split; [done|].
  intros w2 Hw2. cbn [user_data set_call] in Hw2.
  rewrite Hheap, lookup_insert_eq in Hw2.
  eexists _, _. split.
  { unfold complete. cbn [ready_callback set_call call_proxy user_data].
    by apply set_remote_property_callback_failed with (c := closure_of cb data property). }
  cbn [events]. split; [reflexivity|]. split; [done|]. split; [done|].
  intros line Hline. cbn in Hline. apply list_elem_of_singleton in Hline as ->.
  apply set_error_line_contains.
Qed.

(** C4: a write that was issued and succeeds only has its reply released:
    the failure callback is not called and nothing else happens.  On
    success and on failure alike the closure of the write is freed, so that
    a write completed right away leaves the heap as it was before the
    write. *)
Theorem completion_discards_pending_write
    (w : World) (proxy : GDBusProxy) (property : string) (value : GVariant)
    (cb : SetFunction) (data : gpointer) :
  cached_properties proxy !! property <> Some value ->
  exists w1 new1 call,
    set_remote_property proxy property value cb data w = Returns tt w1 /\
    events w1 = events w ++ new1 /\
    remote_calls new1 = [call] /\
    heap w1 !! user_data call = Some (closure_of cb data property) /\
    forall w2 res, heap w2 !! user_data call = heap w1 !! user_data call ->
      exists w3 new,
        complete call res w2 = Returns tt w3 /\
        events w3 = events w2 ++ new /\
        heap w3 = delete (user_data call) (heap w2) /\
        heap w3 !! user_data call = None /\
        (heap w2 = heap w1 -> heap w3 = heap w) /\
        (forall ret, res = Reply ret ->
           new = [EvVariantUnref ret] /\ invocations new = [] /\ remote_calls new = []).
Proof.
  intros Hne.
  destruct (set_remote_property_issues w proxy property value cb data Hne)
    as (p & w1 & new1 & Hfree & Hrun & _ & Hheap & Hev & Hcalls & _).
  exists w1, new1, (set_call proxy property value p).
  split; [done|]. split; [done|]. split; [done|].
  cbn [user_data set_call]. rewrite Hheap, lookup_insert_eq. split; [done|].
  intros w2 res Hw2. unfold complete. cbn [ready_callback set_call call_proxy user_data].
  destruct res as [ret|err].
  - eexists _, _. split; [by eapply set_remote_property_callback_reply|].
    cbn [events heap]. split; [reflexivity|]. split; [done|].
    split; [apply lookup_delete_eq|]. split.
    + intros ->. by apply delete_insert_id.
    + intros ? [= <-]. by cbn.
  - eexists _, _. split; [by eapply set_remote_property_callback_failed|].
    cbn [events heap]. split; [reflexivity|]. split; [done|].
    split; [apply lookup_delete_eq|]. split.
    + intros ->. by apply delete_insert_id.
    + intros ? [=].
Qed.

(** C7: a failed write is dealt with where it completes.
    [set_remote_property] always returns normally (it has no result that
    could carry an error), and the completion of a failed write returns
    normally after exactly three actions: one line on [stderr], the release
    of the error, and one call of the recovery callback.  It issues no
    remote call, so the write is not tried again. *)
Theorem failed_write_resolved_locally
    (w : World) (proxy : GDBusProxy) (property : string) (value : GVariant)
    (cb : SetFunction) (data : gpointer)
    (w2 : World) (call : MethodCall) (f : SetFunction) (arg : gpointer) (name : string)
    (err : GError) :
  heap w2 !! user_data call = Some (closure_of f arg name) ->
  (exists w1, set_remote_property proxy property value cb data w = Returns tt w1) /\
  exists w3 new,
    complete call (Failed err) w2 = Returns tt w3 /\
    events w3 = events w2 ++ new /\
    new = [EvStderr (set_error_line name err); EvErrorFree err; EvInvoke f arg] /\
    remote_calls new = [] /\
    length (stderr_output new) = 1%nat /\
    length (invocations new) = 1%nat.
Proof.
  intros Hc. split.
  - apply set_remote_property_returns.
  - eexists _, _. split.
    { unfold complete. destruct (ready_callback call).
      by apply set_remote_property_callback_failed with (c := closure_of f arg name). }
    cbn [events]. split; [reflexivity|]. by cbn.
Qed.

(** The two scenarios of the property [Powered]: the cached value is [true]. *)

Example powered_unchanged_sends_nothing :
  set_remote_property sample_proxy "Powered" (VBoolean true) 5%positive 42 sample_world =
  Returns tt (with_events sample_world
                [EvVariantEqual (Some (VBoolean true)) (Some (VBoolean true));
                 EvVariantUnref (VBoolean true); EvVariantUnref (VBoolean true)]).
Proof. vm_compute. reflexivity. Qed.

Example powered_changed_then_refused :
  exists w1,
    set_remote_property sample_proxy "Powered" (VBoolean false) 5%positive 42 sample_world
      = Returns tt w1 /\
    remote_calls (events w1) = [set_call sample_proxy "Powered" (VBoolean false) 1%positive] /\
    exists w2,
      complete (set_call sample_proxy "Powered" (VBoolean false) 1%positive)
        (Failed {| err_domain := 7; err_code := 4; err_message := "NotPermitted" |}) w1
        = Returns tt w2 /\
      invocations (events w2) = [(5%positive, 42)] /\
      stderr_output (events w2) =
        ["Error setting remote property 'Powered': NotPermitted" +:+ newline] /\
      heap w2 = ∅.
Proof.
  eexists. split; [vm_compute; reflexivity|]. split; [reflexivity|].
  eexists. split; [vm_compute; reflexivity|]. split; [reflexivity|]. split; reflexivity.
Qed.

(** ** [lookup_property] *)

Lemma with_events_app w new1 new2 :
  with_events (with_events w new1) new2 = with_events w (new1 ++ new2).
Proof. unfold with_events. cbn. by rewrite <- app_assoc. Qed.

Lemma with_events_nil w : with_events w [] = w.
Proof. destruct w. unfold with_events. cbn. by rewrite app_nil_r. Qed.

(** The entries in front of the first occurrence of the key are passed over
    one by one; what follows them is met afterwards, as it is. *)
Lemma lookup_property_loop_skip property (pre : list (string * GVariant)) rest w :
  property ∉ pre.*1 ->
  lookup_property_loop property ((entry_sv <$> pre) ++ rest) w =
  lookup_property_loop property rest (with_events w (skipped pre)).
Proof.
  revert w. induction pre as [|[k v] pre IH]; intros w Hnot.
  - cbn. by rewrite with_events_nil.
  - rewrite fmap_cons, not_elem_of_cons in Hnot. destruct Hnot as [Hk Hpre].
    cbn [fmap list_fmap entry_sv fst snd app lookup_property_loop] in *.
    rewrite (bool_decide_eq_false_2 _ Hk).
    change (lookup_property_loop property ((entry_sv <$> pre) ++ rest)
              (with_events (with_events w [EvFree k]) [EvVariantUnref v]) =
            lookup_property_loop property rest (with_events w (skipped ((k, v) :: pre)))).
    rewrite IH by done. rewrite !with_events_app. reflexivity.
Qed.

(** Every dictionary either lacks the key or splits at its first
    occurrence. *)
Lemma first_occurrence_split (property : string) (entries : list (string * GVariant)) :
  property ∉ entries.*1 \/
  exists pre value post,
    entries = pre ++ (property, value) :: post /\ property ∉ pre.*1.
Proof.
  induction entries as [|[k v] entries IH].
  - left. apply not_elem_of_nil.
  - destruct (decide (property = k)) as [->|Hk].
    + right. exists [], v, entries. split; [done | apply not_elem_of_nil].
    + destruct IH as [Hnot | (pre & value & post & -> & Hpre)].
      * left. rewrite fmap_cons. by apply not_elem_of_cons.
      * right. exists ((k, v) :: pre), value, post. split; [done|].
        rewrite fmap_cons. by apply not_elem_of_cons.
Qed.

(** A dictionary without the key gives NULL; with the key behind [pre], the
    value at the key is returned and [post] stays in the iterator. *)
Lemma lookup_property_split
    (w : World) (property : string) (pre : list (string * GVariant)) :
  property ∉ pre.*1 ->
  lookup_property (dict_sv pre) property w = Returns None (with_events w (skipped pre)) /\
  forall (value : GVariant) (post : list (string * GVariant)),
    lookup_property_loop property (entry_sv <$> (pre ++ (property, value) :: post)) w =
      Returns (Some value, entry_sv <$> post)
              (with_events w (skipped pre ++ [EvFree property])) /\
    lookup_property (dict_sv (pre ++ (property, value) :: post)) property w =
      Returns (Some value) (with_events w (skipped pre ++ [EvFree property])).
Proof.
  intros Hnot. split.
  - unfold lookup_property, dict_sv, g_variant_iter_init. cbn [children].
    cbv [mbind M_bind mret M_ret].
    rewrite <- (app_nil_r (entry_sv <$> pre)), lookup_property_loop_skip by done.
    reflexivity.
  - intros value post.
    assert (lookup_property_loop property (entry_sv <$> (pre ++ (property, value) :: post)) w =
            Returns (Some value, entry_sv <$> post)
                    (with_events w (skipped pre ++ [EvFree property]))) as Hloop.
    { rewrite fmap_app, lookup_property_loop_skip by done.
      cbn [fmap list_fmap entry_sv fst snd lookup_property_loop].
      rewrite bool_decide_eq_true_2 by done.
      change (Returns (Some value, entry_sv <$> post)
                (with_events (with_events w (skipped pre)) [EvFree property]) =
              Returns (Some value, entry_sv <$> post)
                (with_events w (skipped pre ++ [EvFree property]))).
      by rewrite with_events_app. }
    split; [done|].
    unfold lookup_property, dict_sv, g_variant_iter_init. cbn [children].
    cbv [mbind M_bind mret M_ret]. by rewrite Hloop.
Qed.

(** C8: on every dictionary of key and value pairs and for every key,
    [lookup_property] returns NULL when no entry has the key, and otherwise
    the value of the first entry that has it.  In the second case the
    entries behind the first occurrence are still in the iterator when the
    loop returns, and replacing them by any others changes neither the
    result nor what the search does. *)
Theorem lookup_property_first_occurrence
    (w : World) (property : string) (entries : list (string * GVariant)) :
  ((property ∉ entries.*1) /\
   lookup_property (dict_sv entries) property w =
     Returns None (with_events w (skipped entries)))
  \/
  (exists pre value post,
     entries = pre ++ (property, value) :: post /\
     (property ∉ pre.*1) /\
     lookup_property (dict_sv entries) property w =
       Returns (Some value) (with_events w (skipped pre ++ [EvFree property])) /\
     lookup_property_loop property (entry_sv <$> entries) w =
       Returns (Some value, entry_sv <$> post)
               (with_events w (skipped pre ++ [EvFree property])) /\
     forall post',
       lookup_property (dict_sv (pre ++ (property, value) :: post')) property w =
       lookup_property (dict_sv entries) property w).
Proof.
  destruct (first_occurrence_split property entries)
    as [Hnot | (pre & value & post & -> & Hpre)].
  - left. split; [done|]. by apply lookup_property_split.
  - right. exists pre, value, post.
    destruct (lookup_property_split w property pre Hpre) as [_ Hfound].
    destruct (Hfound value post) as [Hloop Hlookup].
    repeat split; try done.
    intros post'. destruct (Hfound value post') as [_ ->]. by rewrite Hlookup.
Qed.

(** ** The scan of the error table *)

Lemma entry_stops_true g err entry :
  entry_stops g err entry = true <->
  (err_domain err = iwd_error_domain g /\ code entry = err_code err) \/ code entry = 0.
Proof.
  unfold entry_stops. split.
  - intros [[H1%bool_decide_eq_true H2%bool_decide_eq_true]%andb_prop
           | H%bool_decide_eq_true]%orb_prop; [by left | by right].
  - intros [[H1 H2] | H]; apply orb_true_intro.
    + left. apply andb_true_intro. split; by apply bool_decide_eq_true.
    + right. by apply bool_decide_eq_true.
Qed.

(** From index [i], with the entry [d] places further on the first one that
    stops the loop, the loop reads [i], ..., [i + d] and breaks there. *)
Lemma error_table_scan_from g err table (d : nat) :
  forall (i : nat) (reads : list nat) (fuel : nat) (entry : ErrorMessage),
    table !! (i + d)%nat = Some entry ->
    entry_stops g err entry = true ->
    (forall n e, (i <= n < i + d)%nat -> table !! n = Some e -> entry_stops g err e = false) ->
    (d < fuel)%nat ->
    error_table_scan fuel g err table i reads = Stopped (message entry) (reads ++ seq i (S d)).
Proof.
  induction d as [|d IH]; intros i reads fuel entry Hentry Hstop Hbefore Hfuel.
  - destruct fuel as [|fuel]; [lia|]. cbn [error_table_scan].
    rewrite Nat.add_0_r in Hentry. by rewrite Hentry, Hstop.
  - destruct fuel as [|fuel]; [lia|]. cbn [error_table_scan].
    destruct (table !! i) as [e|] eqn:Hi.
    + rewrite (Hbefore i e) by (done || lia).
      rewrite (IH (S i) (reads ++ [i]) fuel entry); try done; try lia.
      * by rewrite <- app_assoc.
      * by replace (S i + d)%nat with (i + S d)%nat by lia.
      * intros n e' Hn. apply Hbefore. lia.
    + apply lookup_ge_None in Hi. apply lookup_lt_Some in Hentry. lia.
Qed.

(** An entry that stops the loop has a first one at or before it. *)
Lemma first_stop_exists g err (table : list ErrorMessage) (k : nat) entry :
  table !! k = Some entry ->
  entry_stops g err entry = true ->
  exists j e,
    (j <= k)%nat /\ table !! j = Some e /\ entry_stops g err e = true /\
    forall n e', (n < j)%nat -> table !! n = Some e' -> entry_stops g err e' = false.
Proof.
  intros Hk Hstop.
  destruct (list_find_elem_of (fun e => entry_stops g err e = true) table entry)
    as [[j e] Hfind]; [by eapply list_elem_of_lookup_2 | done |].
  apply list_find_Some in Hfind as (Hj & He & Hfirst).
  exists j, e. repeat split; try done.
  - destruct (decide (j <= k)%nat) as [|Hgt]; [done|].
    exfalso. apply (Hfirst k entry); [done | lia | done].
  - intros n e' Hn He'. specialize (Hfirst n e' He' Hn).
    by destruct (entry_stops g err e').
Qed.

Lemma validation_callback_failed fuel proxy err m w prefix table detailed reads :
  failure m = Some prefix ->
  error_table m = Some table ->
  error_table_scan fuel (global w) err table 0 [] = Stopped detailed reads ->
  validation_callback fuel proxy (Failed err) (Some m) w =
  Returns tt (with_events w (failure_events (global w) prefix detailed err)).
Proof.
  intros Hprefix Htable Hscan. unfold validation_callback. rewrite Hprefix, Htable.
  run. rewrite Hscan. unfold failure_events.
  destruct detailed as [detail|]; destruct (notifications_disable (global w));
    cbn [negb global heap events app]; by rewrite <- ?app_assoc.
Qed.

(** C10: the scan of the error table ends whenever the table holds, at some
    index [k], an entry that matches the error (iwd error domain and equal
    code) or an entry with code 0, the sentinel among them: given more fuel
    than the index of the first such entry, the loop breaks at that entry,
    having read the entries up to it and none behind [k], and
    [validation_callback] returns. *)
Theorem error_table_scan_terminates
    (g : GlobalData) (err : GError) (table : list ErrorMessage) (k : nat)
    (entry : ErrorMessage) :
  table !! k = Some entry ->
  (err_domain err = iwd_error_domain g /\ code entry = err_code err) \/ code entry = 0 ->
  exists j e,
    (j <= k)%nat /\ table !! j = Some e /\
    forall fuel, (j < fuel)%nat ->
      error_table_scan fuel g err table 0 [] = Stopped (message e) (seq 0 (S j)) /\
      (forall i, i ∈ seq 0 (S j) -> (i <= k)%nat) /\
      forall proxy m w, error_table m = Some table -> global w = g ->
        exists w', validation_callback fuel proxy (Failed err) (Some m) w = Returns tt w'.
Proof.
  intros Hk Hstop%entry_stops_true.
  destruct (first_stop_exists g err table k entry Hk Hstop) as (j & e & Hjk & Hj & He & Hfirst).
  exists j, e. split; [done|]. split; [done|]. intros fuel Hfuel.
  assert (error_table_scan fuel g err table 0 [] = Stopped (message e) (seq 0 (S j))) as Hscan.
  { apply (error_table_scan_from g err table j 0%nat [] fuel e); try done.
    intros n e' Hn. apply Hfirst. lia. }
  split; [done|]. split.
  - intros i Hi%elem_of_seq. lia.
  - intros proxy m w Htable <-.
    destruct (failure m) as [prefix|] eqn:Hprefix.
    + eexists. by eapply validation_callback_failed.
    + eexists. unfold validation_callback. rewrite Hprefix. run. reflexivity.
Qed.

(** ** The message of [validation_callback] *)

(** C5 (as stated) fails: an error of another domain whose code equals the
    code of the second entry of the table is not given the message of that
    entry.  The scan passes the entry, stops at the sentinel, and the
    notification is the bare prefix. *)
Lemma foreign_domain_code_match_gets_no_detail :
  let err := {| err_domain := 3; err_code := 2; err_message := "Timeout was reached" |} in
  sample_table !! 1%nat = Some {| code := 2; message := Some "Operation failed" |} /\
  err_code err = 2 /\
  exists w',
    validation_callback 3 sample_proxy (Failed err) (Some (sample_messages sample_table))
      sample_world = Returns tt w' /\
    notifications (events w') =
      [ {| title := "iwgtk"; body := "Connection failed";
           priority := G_NOTIFICATION_PRIORITY_NORMAL |} ] /\
    notifications (events w') <>
      [ {| title := "iwgtk"; body := "Connection failed: Operation failed";
           priority := G_NOTIFICATION_PRIORITY_NORMAL |} ].
Proof.
  cbn zeta. split; [reflexivity|]. split; [reflexivity|].
  eexists. split; [vm_compute; reflexivity|]. split; [reflexivity|]. discriminate.
Qed.

(** C5 (amended): when [validation_callback] completes a failed call whose
    error is of the iwd error domain, the messages have a failure prefix,
    and the first entry of the error table with the code of the error (no
    entry before it has that code or code 0) has a message, then the
    notification, sent unless notifications are disabled, reads
    "<failure prefix>: <message of the entry>". *)
Theorem validation_callback_detailed_message
    (fuel : nat) (proxy : GDBusProxy) (w : World) (err : GError) (m : CallbackMessages)
    (prefix : string) (table : list ErrorMessage) (k : nat) (entry : ErrorMessage)
    (text : string) :
  failure m = Some prefix ->
  error_table m = Some table ->
  table !! k = Some entry ->
  err_domain err = iwd_error_domain (global w) ->
  code entry = err_code err ->
  (forall i e, (i < k)%nat -> table !! i = Some e -> code e <> err_code err /\ code e <> 0) ->
  message entry = Some text ->
  (k < fuel)%nat ->
  exists w' new,
    validation_callback fuel proxy (Failed err) (Some m) w = Returns tt w' /\
    events w' = events w ++ new /\
    notifications new =
      if notifications_disable (global w) then []
      else [ {| title := "iwgtk"; body := prefix +:+ ": " +:+ text;
                priority := G_NOTIFICATION_PRIORITY_NORMAL |} ].
Proof.
  intros Hprefix Htable Hk Hdomain Hcode Hfirst Htext Hfuel.
  assert (error_table_scan fuel (global w) err table 0 [] = Stopped (Some text) (seq 0 (S k)))
    as Hscan.
  { rewrite <- Htext.
    apply (error_table_scan_from (global w) err table k 0%nat [] fuel entry); try done.
    - apply entry_stops_true. by left.
    - intros n e [_ Hn] He. destruct (Hfirst n e Hn He) as [Hne Hnz].
      destruct (entry_stops (global w) err e) eqn:Hs; [|done].
      apply entry_stops_true in Hs as [[_ ?]|?]; done. }
  eexists _, _. split; [by eapply validation_callback_failed|].
  cbn [events with_events]. split; [reflexivity|].
  unfold failure_events. by destruct (notifications_disable (global w)).
Qed.

(** C6 (as stated) fails: with a sentinel that carries a message, an error
    that matches no entry is reported with that message appended. *)
Lemma sentinel_message_is_appended :
  let err := {| err_domain := 7; err_code := 9; err_message := "Not supported" |} in
  (forall e, e ∈ sample_table_default -> code e <> err_code err) /\
  sample_table_default !! 1%nat = Some {| code := 0; message := Some "Unknown error" |} /\
  exists w',
    validation_callback 2 sample_proxy (Failed err)
      (Some (sample_messages sample_table_default)) sample_world = Returns tt w' /\
    notifications (events w') =
      [ {| title := "iwgtk"; body := "Connection failed: Unknown error";
           priority := G_NOTIFICATION_PRIORITY_NORMAL |} ] /\
    notifications (events w') <>
      [ {| title := "iwgtk"; body := "Connection failed";
           priority := G_NOTIFICATION_PRIORITY_NORMAL |} ].
Proof.
  cbn zeta. split.
  { intros e He. unfold sample_table_default in He.
    apply elem_of_cons in He as [->|He]; [done|].
    apply elem_of_cons in He as [->|He]; [done|].
    by apply elem_of_nil in He. }
  split; [reflexivity|].
  eexists. split; [vm_compute; reflexivity|]. split; [reflexivity|]. discriminate.
Qed.

(** C6 (amended): when [validation_callback] completes a failed call, the
    messages have a failure prefix, and the scan of the error table reaches
    the sentinel (no entry before it matches the error or has code 0), the
    notification, sent unless notifications are disabled, is the bare
    failure prefix if the message of the sentinel is NULL, and
    "<failure prefix>: <message of the sentinel>" otherwise. *)
Theorem validation_callback_fallback_message
    (fuel : nat) (proxy : GDBusProxy) (w : World) (err : GError) (m : CallbackMessages)
    (prefix : string) (table : list ErrorMessage) (k : nat) (sentinel : ErrorMessage) :
  failure m = Some prefix ->
  error_table m = Some table ->
  table !! k = Some sentinel ->
  code sentinel = 0 ->
  (forall i e, (i < k)%nat -> table !! i = Some e ->
     ~ (err_domain err = iwd_error_domain (global w) /\ code e = err_code err) /\
     code e <> 0) ->
  (k < fuel)%nat ->
  exists w' new,
    validation_callback fuel proxy (Failed err) (Some m) w = Returns tt w' /\
    events w' = events w ++ new /\
    notifications new =
      if notifications_disable (global w) then []
      else [ {| title := "iwgtk";
                body := match message sentinel with
                        | None => prefix
                        | Some detail => prefix +:+ ": " +:+ detail
                        end;
                priority := G_NOTIFICATION_PRIORITY_NORMAL |} ].
Proof.
  intros Hprefix Htable Hk Hzero Hbefore Hfuel.
  assert (error_table_scan fuel (global w) err table 0 [] =
          Stopped (message sentinel) (seq 0 (S k))) as Hscan.
  { apply (error_table_scan_from (global w) err table k 0%nat [] fuel sentinel); try done.
    - apply entry_stops_true. by right.
    - intros n e [_ Hn] He. destruct (Hbefore n e Hn He) as [Hne Hnz].
      destruct (entry_stops (global w) err e) eqn:Hs; [|done].
      apply entry_stops_true in Hs as [?|?]; done. }
  eexists _, _. split; [by eapply validation_callback_failed|].
  cbn [events with_events]. split; [reflexivity|].
  unfold failure_events.
  by destruct (message sentinel), (notifications_disable (global w)).
Qed.

(** ** The theorems at sample inputs *)

Lemma set_remote_property_skips_equal_value_witness :
  cached_properties sample_proxy !! "Powered" = Some (VBoolean true) /\
  exists w' new,
    set_remote_property sample_proxy "Powered" (VBoolean true) 5%positive 42 sample_world
      = Returns tt w' /\
    events w' = events sample_world ++ new /\
    heap w' = heap sample_world /\
    new = [EvVariantEqual (Some (VBoolean true)) (Some (VBoolean true));
           EvVariantUnref (VBoolean true); EvVariantUnref (VBoolean true)] /\
    remote_calls new = [] /\
    invocations new = [] /\
    VBoolean true ∈ released new.
Proof.
  assert (cached_properties sample_proxy !! "Powered" = Some (VBoolean true)) as H
    by reflexivity.
  split; [exact H|].
  exact (set_remote_property_skips_equal_value sample_world sample_proxy "Powered"
           (VBoolean true) 5%positive 42 H).
Defined.

Lemma failed_write_reports_once_witness :
  cached_properties sample_proxy !! "Powered" <> Some (VBoolean false) /\
  exists w1 new1 call,
    set_remote_property sample_proxy "Powered" (VBoolean false) 5%positive 42 sample_world
      = Returns tt w1 /\
    events w1 = events sample_world ++ new1 /\
    remote_calls new1 = [call] /\
    forall w2, heap w2 !! user_data call = heap w1 !! user_data call ->
      exists w3 new,
        complete call (Failed {| err_domain := 7; err_code := 2;
                                 err_message := "NotPermitted" |}) w2 = Returns tt w3 /\
        events w3 = events w2 ++ new /\
        invocations new = [(5%positive, 42)] /\
        stderr_output new =
          ["Error setting remote property '" +:+ "Powered" +:+ "': "
           +:+ "NotPermitted" +:+ newline] /\
        forall line, line ∈ stderr_output new ->
          contains line "Powered" /\ contains line "NotPermitted".
Proof.
  assert (cached_properties sample_proxy !! "Powered" <> Some (VBoolean false)) as H
    by (vm_compute; discriminate).
  split; [exact H|].
  exact (failed_write_reports_once sample_world sample_proxy "Powered" (VBoolean false)
           5%positive 42
           {| err_domain := 7; err_code := 2; err_message := "NotPermitted" |} H).
Defined.

Lemma completion_discards_pending_write_witness :
  cached_properties sample_proxy !! "Powered" <> Some (VBoolean false) /\
  exists w1 new1 call,
    set_remote_property sample_proxy "Powered" (VBoolean false) 5%positive 42 sample_world
      = Returns tt w1 /\
    events w1 = events sample_world ++ new1 /\
    remote_calls new1 = [call] /\
    heap w1 !! user_data call = Some (closure_of 5%positive 42 "Powered") /\
    forall w2 res, heap w2 !! user_data call = heap w1 !! user_data call ->
      exists w3 new,
        complete call res w2 = Returns tt w3 /\
        events w3 = events w2 ++ new /\
        heap w3 = delete (user_data call) (heap w2) /\
        heap w3 !! user_data call = None /\
        (heap w2 = heap w1 -> heap w3 = heap sample_world) /\
        (forall ret, res = Reply ret ->
           new = [EvVariantUnref ret] /\ invocations new = [] /\ remote_calls new = []).
Proof.
  assert (cached_properties sample_proxy !! "Powered" <> Some (VBoolean false)) as H
    by (vm_compute; discriminate).
  split; [exact H|].
  exact (completion_discards_pending_write sample_world sample_proxy "Powered"
           (VBoolean false) 5%positive 42 H).
Defined.

Lemma failed_write_resolved_locally_witness :
  let call := set_call sample_proxy "Powered" (VBoolean false) 1%positive in
  let err := {| err_domain := 7; err_code := 2; err_message := "NotPermitted" |} in
  heap sample_pending !! user_data call = Some (closure_of 5%positive 42 "Powered") /\
  (exists w1, set_remote_property sample_proxy "Powered" (VBoolean false) 5%positive 42
                sample_world = Returns tt w1) /\
  exists w3 new,
    complete call (Failed err) sample_pending = Returns tt w3 /\
    events w3 = events sample_pending ++ new /\
    new = [EvStderr (set_error_line "Powered" err); EvErrorFree err;
           EvInvoke 5%positive 42] /\
    remote_calls new = [] /\
    length (stderr_output new) = 1%nat /\
    length (invocations new) = 1%nat.
Proof.
  intros call err.
  assert (heap sample_pending !! user_data call = Some (closure_of 5%positive 42 "Powered"))
    as H by (vm_compute; reflexivity).
  split; [exact H|].
  exact (failed_write_resolved_locally sample_world sample_proxy "Powered" (VBoolean false)
           5%positive 42 sample_pending call 5%positive 42 "Powered" err H).
Defined.

Lemma error_table_scan_terminates_witness :
  let err := {| err_domain := 7; err_code := 9; err_message := "Not supported" |} in
  let sentinel := {| code := 0; message := None |} in
  sample_table !! 2%nat = Some sentinel /\
  ((err_domain err = iwd_error_domain sample_global /\ code sentinel = err_code err) \/
   code sentinel = 0) /\
  exists j e,
    (j <= 2)%nat /\ sample_table !! j = Some e /\
    forall fuel, (j < fuel)%nat ->
      error_table_scan fuel sample_global err sample_table 0 []
        = Stopped (message e) (seq 0 (S j)) /\
      (forall i, i ∈ seq 0 (S j) -> (i <= 2)%nat) /\
      forall proxy m w, error_table m = Some sample_table -> global w = sample_global ->
        exists w', validation_callback fuel proxy (Failed err) (Some m) w = Returns tt w'.
Proof.
  intros err sentinel.
  assert (sample_table !! 2%nat = Some sentinel) as H1 by reflexivity.
  assert ((err_domain err = iwd_error_domain sample_global /\ code sentinel = err_code err) \/
          code sentinel = 0) as H2 by (right; reflexivity).
  split; [exact H1|]. split; [exact H2|].
  exact (error_table_scan_terminates sample_global err sample_table 2 sentinel H1 H2).
Defined.

Lemma validation_callback_detailed_message_witness :
  let err := {| err_domain := 7; err_code := 2; err_message := "Operation failed" |} in
  let m := sample_messages sample_table in
  let entry := {| code := 2; message := Some "Operation failed" |} in
  failure m = Some "Connection failed" /\
  error_table m = Some sample_table /\
  sample_table !! 1%nat = Some entry /\
  err_domain err = iwd_error_domain (global sample_world) /\
  code entry = err_code err /\
  (forall i e, (i < 1)%nat -> sample_table !! i = Some e ->
     code e <> err_code err /\ code e <> 0) /\
  message entry = Some "Operation failed" /\
  (1 < 3)%nat /\
  exists w' new,
    validation_callback 3 sample_proxy (Failed err) (Some m) sample_world = Returns tt w' /\
    events w' = events sample_world ++ new /\
    notifications new =
      if notifications_disable (global sample_world) then []
      else [ {| title := "iwgtk"; body := "Connection failed" +:+ ": " +:+ "Operation failed";
                priority := G_NOTIFICATION_PRIORITY_NORMAL |} ].
Proof.
  intros err m entry.
  assert (forall i e, (i < 1)%nat -> sample_table !! i = Some e ->
            code e <> err_code err /\ code e <> 0) as H6.
  { intros [|i] e Hi He; [|lia]. injection He as <-. split; discriminate. }
  assert ((1 < 3)%nat) as H8 by lia.
  repeat (split; [first [reflexivity | exact H6 | exact H8]|]).
  exact (validation_callback_detailed_message 3 sample_proxy sample_world err m
           "Connection failed" sample_table 1 entry "Operation failed"
           eq_refl eq_refl eq_refl eq_refl eq_refl H6 eq_refl H8).
Defined.

Lemma validation_callback_fallback_message_witness :
  let err := {| err_domain := 7; err_code := 9; err_message := "Not supported" |} in
  let m := sample_messages sample_table in
  let sentinel := {| code := 0; message := None |} in
  failure m = Some "Connection failed" /\
  error_table m = Some sample_table /\
  sample_table !! 2%nat = Some sentinel /\
  code sentinel = 0 /\
  (forall i e, (i < 2)%nat -> sample_table !! i = Some e ->
     ~ (err_domain err = iwd_error_domain (global sample_world) /\ code e = err_code err) /\
     code e <> 0) /\
  (2 < 3)%nat /\
  exists w' new,
    validation_callback 3 sample_proxy (Failed err) (Some m) sample_world = Returns tt w' /\
    events w' = events sample_world ++ new /\
    notifications new =
      if notifications_disable (global sample_world) then []
      else [ {| title := "iwgtk";
                body := match message sentinel with
                        | None => "Connection failed"
                        | Some detail => "Connection failed" +:+ ": " +:+ detail
                        end;
                priority := G_NOTIFICATION_PRIORITY_NORMAL |} ].
Proof.
  intros err m sentinel.
  assert (forall i e, (i < 2)%nat -> sample_table !! i = Some e ->
     ~ (err_domain err = iwd_error_domain (global sample_world) /\ code e = err_code err) /\
     code e <> 0) as H5.
  { intros [|[|i]] e Hi He; [| |lia]; injection He as <-;
      (split; [intros [_ ?]; discriminate | discriminate]). }
  assert ((2 < 3)%nat) as H6 by lia.
  repeat (split; [first [reflexivity | exact H5 | exact H6]|]).
  exact (validation_callback_fallback_message 3 sample_proxy sample_world err m
           "Connection failed" sample_table 2 sentinel
           eq_refl eq_refl eq_refl eq_refl H5 H6).
Defined.

(** * Further properties *)

(** ** [validation_callback] beyond the table lookup *)

(** Every run of [validation_callback] that returns has added one of these
    lists of events. *)
Lemma validation_callback_returns_inv fuel proxy res messages w w' :
  validation_callback fuel proxy res messages w = Returns tt w' ->
  exists new,
    w' = with_events w new /\
    match res with
    | Reply ret =>
        new = EvVariantUnref ret ::
              match messages ≫= success with
              | Some text =>
                  if notifications_disable (global w) then []
                  else [EvNotification {| title := "iwgtk"; body := text;
                                          priority := G_NOTIFICATION_PRIORITY_NORMAL |}]
              | None => []
              end
    | Failed err =>
        match messages ≫= failure with
        | Some prefix => exists detailed, new = failure_events (global w) prefix detailed err
        | None => new = [EvStderr (err_message err +:+ newline); EvErrorFree err]
        end
    end.
Proof.
  intros Hrun. destruct res as [ret|err].
  - revert Hrun. unfold validation_callback.
    destruct messages as [m|]; cbn [mbind option_bind]; [destruct (success m) as [text|]|];
      run; try destruct (notifications_disable (global w)); cbn [negb];
      intros [= <-]; refine (ex_intro _ _ (conj _ eq_refl));
      cbn [app]; by rewrite <- ?app_assoc.
  - destruct messages as [m|]; cbn [mbind option_bind].
    + destruct (failure m) as [prefix|] eqn:Hprefix.
      * destruct (error_table m) as [table|] eqn:Htable.
        -- destruct (error_table_scan fuel (global w) err table 0 []) as [d reads|reads|reads]
             eqn:Hscan.
           ++ rewrite (validation_callback_failed _ _ _ _ _ _ _ _ _ Hprefix Htable Hscan) in Hrun.
              injection Hrun as <-. eexists. split; [reflexivity|]. by exists d.
           ++ revert Hrun. unfold validation_callback. rewrite Hprefix, Htable. run.
              by rewrite Hscan.
           ++ revert Hrun. unfold validation_callback. rewrite Hprefix, Htable. run.
              by rewrite Hscan.
        -- revert Hrun. unfold validation_callback. rewrite Hprefix, Htable. run.
           unfold failure_events.
           destruct (notifications_disable (global w)); cbn [negb];
             intros [= <-]; refine (ex_intro _ _ (conj _ (ex_intro _ None eq_refl)));
             cbn [app]; by rewrite <- ?app_assoc.
      * revert Hrun. unfold validation_callback. rewrite Hprefix. run.
        intros [= <-]. refine (ex_intro _ _ (conj _ eq_refl)). by rewrite <- ?app_assoc.
    + revert Hrun. unfold validation_callback. run.
      intros [= <-]. refine (ex_intro _ _ (conj _ eq_refl)). by rewrite <- ?app_assoc.
Qed.

(** X1: on a reply [validation_callback] needs no fuel and reads no table:
    it returns after releasing the reply and, if a success text is supplied
    and notifications are not disabled, one notification with that text.
    Nothing goes to [stderr] and no argument check fails. *)
Theorem validation_callback_reply
    (fuel : nat) (proxy : GDBusProxy) (ret : GVariant) (messages : option CallbackMessages)
    (w : World) :
  exists new,
    validation_callback fuel proxy (Reply ret) messages w = Returns tt (with_events w new) /\
    released new = [ret] /\
    stderr_output new = [] /\
    criticals new = [] /\
    notifications new =
      match messages ≫= success with
      | Some text =>
          if notifications_disable (global w) then []
          else [ {| title := "iwgtk"; body := text;
                    priority := G_NOTIFICATION_PRIORITY_NORMAL |} ]
      | None => []
      end.
Proof.
  unfold validation_callback.
  destruct messages as [m|]; cbn [mbind option_bind]; [destruct (success m) as [text|]|];
    run; try destruct (notifications_disable (global w)); cbn [negb global heap events];
    eexists; (split; [rewrite <- ?app_assoc; reflexivity|]); by cbn.
Qed.

(** X2: without a failure prefix (no messages at all, or a NULL [failure])
    a failed call is only logged: the error table is not looked at, so that
    the run returns whatever the table is and with no fuel at all, sends no
    notification, prints the message of the error and frees the error. *)
Theorem validation_callback_without_prefix
    (fuel : nat) (proxy : GDBusProxy) (err : GError) (messages : option CallbackMessages)
    (w : World) :
  messages ≫= failure = None ->
  validation_callback fuel proxy (Failed err) messages w =
  Returns tt (with_events w [EvStderr (err_message err +:+ newline); EvErrorFree err]).
Proof.
  intros Hnone. unfold validation_callback.
  destruct messages as [m|]; cbn [mbind option_bind] in Hnone; [rewrite Hnone|];
    run; by rewrite <- ?app_assoc.
Qed.

(** X3: a failure prefix without an error table (NULL [error_table]) gives
    the bare prefix as notification, for every error and any fuel; the error
    is logged and freed. *)
Theorem validation_callback_without_table
    (fuel : nat) (proxy : GDBusProxy) (err : GError) (m : CallbackMessages)
    (prefix : string) (w : World) :
  failure m = Some prefix ->
  error_table m = None ->
  exists new,
    validation_callback fuel proxy (Failed err) (Some m) w = Returns tt (with_events w new) /\
    notifications new =
      (if notifications_disable (global w) then []
       else [ {| title := "iwgtk"; body := prefix;
                 priority := G_NOTIFICATION_PRIORITY_NORMAL |} ]) /\
    stderr_output new = [err_message err +:+ newline].
Proof.
  intros Hprefix Htable. unfold validation_callback. rewrite Hprefix, Htable. run.
  destruct (notifications_disable (global w)); cbn [negb global heap events];
    eexists; (split; [rewrite <- ?app_assoc; reflexivity|]); by cbn.
Qed.

Lemma stderr_output_app evs1 evs2 :
  stderr_output (evs1 ++ evs2) = stderr_output evs1 ++ stderr_output evs2.
Proof. apply omap_app. Qed.

(** X4: whenever [validation_callback] returns from a failed call, its last
    two actions are the line with the message of the error on [stderr] and
    the release of the error; before them it has written nothing to
    [stderr]. *)
Theorem validation_callback_logs_every_error
    (fuel : nat) (proxy : GDBusProxy) (err : GError) (messages : option CallbackMessages)
    (w w' : World) :
  validation_callback fuel proxy (Failed err) messages w = Returns tt w' ->
  exists before,
    events w' = events w ++ before ++
                [EvStderr (err_message err +:+ newline); EvErrorFree err] /\
    stderr_output before = [] /\
    heap w' = heap w.
Proof.
  intros Hrun.
  destruct (validation_callback_returns_inv _ _ _ _ _ _ Hrun) as (new & -> & Hnew).
  cbn [with_events events heap]. destruct (messages ≫= failure) as [prefix|].
  - destruct Hnew as [detailed ->]. unfold failure_events.
    eexists. split; [reflexivity|]. split; [|done].
    by destruct detailed, (notifications_disable (global w)).
  - subst new. by exists [].
Qed.

(** X5: notifications are optional.  A run of [validation_callback] sends at
    most one notification, and none when [global.notifications_disable] is
    set, on a reply as on an error. *)
Theorem validation_callback_respects_disable
    (fuel : nat) (proxy : GDBusProxy) (res : GAsyncResult)
    (messages : option CallbackMessages) (w w' : World) :
  validation_callback fuel proxy res messages w = Returns tt w' ->
  exists new,
    events w' = events w ++ new /\
    (length (notifications new) <= 1)%nat /\
    (notifications_disable (global w) = true -> notifications new = []).
Proof.
  intros Hrun.
  destruct (validation_callback_returns_inv _ _ _ _ _ _ Hrun) as (new & -> & Hnew).
  exists new. split; [done|]. destruct res as [ret|err].
  - subst new. destruct (messages ≫= success), (notifications_disable (global w));
      cbn; split; (lia || done).
  - destruct (messages ≫= failure) as [prefix|].
    + destruct Hnew as [detailed ->]. unfold failure_events.
      destruct detailed, (notifications_disable (global w)); cbn; split; (lia || done).
    + subst new. cbn. split; [lia | done].
Qed.

(** X6: [validation_callback] stays within its task: a run that returns has
    issued no remote call, called no recovery callback, and left the heap
    and the globals as they were. *)
Theorem validation_callback_frame
    (fuel : nat) (proxy : GDBusProxy) (res : GAsyncResult)
    (messages : option CallbackMessages) (w w' : World) :
  validation_callback fuel proxy res messages w = Returns tt w' ->
  exists new,
    events w' = events w ++ new /\
    heap w' = heap w /\
    global w' = global w /\
    remote_calls new = [] /\
    invocations new = [].
Proof.
  intros Hrun.
  destruct (validation_callback_returns_inv _ _ _ _ _ _ Hrun) as (new & -> & Hnew).
  exists new. repeat (split; [done|]). destruct res as [ret|err].
  - subst new. by destruct (messages ≫= success), (notifications_disable (global w)).
  - destruct (messages ≫= failure) as [prefix|].
    + destruct Hnew as [detailed ->]. unfold failure_events.
      by destruct detailed, (notifications_disable (global w)).
    + by subst new.
Qed.

(** ** The scan of a table without an end *)

(** Where no entry stops the loop, it reads every entry and then one place
    past the last. *)
Lemma error_table_scan_past_end g err table :
  (forall e, e ∈ table -> entry_stops g err e = false) ->
  forall (n i : nat) (reads : list nat) (fuel : nat),
    (i + n)%nat = length table ->
    (n < fuel)%nat ->
    error_table_scan fuel g err table i reads = PastEnd (reads ++ seq i n).
Proof.
  intros Hnone. induction n as [|n IH]; intros i reads fuel Hlen Hfuel.
  - destruct fuel as [|fuel]; [lia|]. cbn [error_table_scan seq].
    rewrite (lookup_ge_None_2 table i) by lia. by rewrite app_nil_r.
  - destruct fuel as [|fuel]; [lia|]. cbn [error_table_scan].
    destruct (lookup_lt_is_Some_2 table i) as [e He]; [lia|]. rewrite He.
    rewrite (Hnone e) by (by eapply list_elem_of_lookup_2).
    rewrite (IH (S i) (reads ++ [i]) fuel) by lia. by rewrite <- app_assoc.
Qed.

(** X7: an error table without a sentinel is read past its end.  If no entry
    of the table matches the error (iwd domain and equal code) and none has
    code 0, the loop reads all the entries and then the place behind the
    last one, which is outside the array: the behaviour of
    [validation_callback] is undefined.  The empty table is the least such
    table. *)
Theorem validation_callback_unterminated_table
    (fuel : nat) (proxy : GDBusProxy) (err : GError) (m : CallbackMessages)
    (prefix : string) (table : list ErrorMessage) (w : World) :
  failure m = Some prefix ->
  error_table m = Some table ->
  (forall e, e ∈ table ->
     ~ (err_domain err = iwd_error_domain (global w) /\ code e = err_code err) /\
     code e <> 0) ->
  (length table < fuel)%nat ->
  error_table_scan fuel (global w) err table 0 [] = PastEnd (seq 0 (length table)) /\
  validation_callback fuel proxy (Failed err) (Some m) w = Undefined OutOfBounds.
Proof.
  intros Hprefix Htable Hnone Hfuel.
  assert (error_table_scan fuel (global w) err table 0 [] = PastEnd (seq 0 (length table)))
    as Hscan.
  { apply (error_table_scan_past_end (global w) err table) with (reads := []);
      [|done..].
    intros e He. destruct (Hnone e He) as [Hne Hnz].
    destruct (entry_stops (global w) err e) eqn:Hs; [|done].
    apply entry_stops_true in Hs as [?|?]; done. }
  split; [done|]. unfold validation_callback. rewrite Hprefix, Htable. run.
  by rewrite Hscan.
Qed.

(** ** Fuel *)



(** ** Writes and their completions *)

Lemma complete_live w call res c :
  heap w !! user_data call = Some c ->
  complete call res w =
  Returns tt {| global := global w; heap := delete (user_data call) (heap w);
                events := events w ++ completion_events c res |}.
Proof.
  intros Hc. unfold complete. destruct (ready_callback call), res as [ret|err].
  - by apply set_remote_property_callback_reply with (c := c).
  - by apply set_remote_property_callback_failed.
Qed.

Lemma complete_dead w call res :
  heap w !! user_data call = None ->
  complete call res w = Undefined InvalidPointer.
Proof.
  intros Hc. unfold complete. destruct (ready_callback call), res as [ret|err];
    run; by rewrite Hc.
Qed.

Lemma remote_calls_app evs1 evs2 :
  remote_calls (evs1 ++ evs2) = remote_calls evs1 ++ remote_calls evs2.
Proof. apply omap_app. Qed.

Lemma invocations_app evs1 evs2 :
  invocations (evs1 ++ evs2) = invocations evs1 ++ invocations evs2.
Proof. apply omap_app. Qed.

Lemma invocations_completion c res :
  invocations (completion_events c res) =
  match res with Reply _ => [] | Failed _ => [(callback c, data c)] end.
Proof. by destruct res. Qed.

(** X9: a write is completed once.  The first completion of an issued write
    returns and frees the closure; a second completion of the same call
    reads or frees a block that is no longer live, whatever the two results
    are. *)
Theorem second_completion_is_undefined
    (w : World) (proxy : GDBusProxy) (property : string) (value : GVariant)
    (cb : SetFunction) (data : gpointer) (res res' : GAsyncResult) :
  cached_properties proxy !! property <> Some value ->
  exists w1 new1 call w2,
    set_remote_property proxy property value cb data w = Returns tt w1 /\
    events w1 = events w ++ new1 /\
    remote_calls new1 = [call] /\
    complete call res w1 = Returns tt w2 /\
    complete call res' w2 = Undefined InvalidPointer.
Proof.
  intros Hne.
  destruct (set_remote_property_issues w proxy property value cb data Hne)
    as (p & w1 & new1 & _ & Hrun & _ & Hheap & Hev & Hcalls & _).
  assert (heap w1 !! p = Some (closure_of cb data property)) as Hlive.
  { rewrite Hheap. apply lookup_insert_eq. }
  eexists w1, new1, (set_call proxy property value p), _.
  split; [done|]. split; [done|]. split; [done|].
  split; [by apply complete_live|].
  apply complete_dead. cbn [heap user_data set_call]. apply lookup_delete_eq.
Qed.

(** X10: writes that overlap do not disturb each other.  Two writes issued
    one after the other, before either completes, have their closures in
    different blocks.  In whichever order the two calls complete, and with
    whatever results, both completions return, each failed write calls its
    own callback with its own context, and the heap is afterwards as it was
    before the first write. *)
Theorem overlapping_writes_are_independent
    (w : World)
    (proxy1 : GDBusProxy) (property1 : string) (value1 : GVariant)
    (cb1 : SetFunction) (data1 : gpointer) (res1 : GAsyncResult)
    (proxy2 : GDBusProxy) (property2 : string) (value2 : GVariant)
    (cb2 : SetFunction) (data2 : gpointer) (res2 : GAsyncResult) :
  cached_properties proxy1 !! property1 <> Some value1 ->
  cached_properties proxy2 !! property2 <> Some value2 ->
  let report1 := match res1 with Reply _ => [] | Failed _ => [(cb1, data1)] end in
  let report2 := match res2 with Reply _ => [] | Failed _ => [(cb2, data2)] end in
  exists w1 w2 call1 call2,
    set_remote_property proxy1 property1 value1 cb1 data1 w = Returns tt w1 /\
    set_remote_property proxy2 property2 value2 cb2 data2 w1 = Returns tt w2 /\
    remote_calls (events w2) = remote_calls (events w) ++ [call1; call2] /\
    user_data call1 <> user_data call2 /\
    (exists wa wb,
       complete call1 res1 w2 = Returns tt wa /\
       complete call2 res2 wa = Returns tt wb /\
       heap wb = heap w /\
       invocations (events wb) = invocations (events w2) ++ report1 ++ report2) /\
    (exists wa wb,
       complete call2 res2 w2 = Returns tt wa /\
       complete call1 res1 wa = Returns tt wb /\
       heap wb = heap w /\
       invocations (events wb) = invocations (events w2) ++ report2 ++ report1).
Proof.
  intros Hne1 Hne2 report1 report2.
  destruct (set_remote_property_issues w proxy1 property1 value1 cb1 data1 Hne1)
    as (p1 & w1 & new1 & Hfree1 & Hrun1 & _ & Hheap1 & Hev1 & Hcalls1 & _).
  destruct (set_remote_property_issues w1 proxy2 property2 value2 cb2 data2 Hne2)
    as (p2 & w2 & new2 & Hfree2 & Hrun2 & _ & Hheap2 & Hev2 & Hcalls2 & _).
  assert (p1 <> p2) as Hp.
  { intros ->. rewrite Hheap1, lookup_insert_eq in Hfree2. discriminate. }
  set (c1 := closure_of cb1 data1 property1) in *.
  set (c2 := closure_of cb2 data2 property2) in *.
  assert (heap w2 !! p1 = Some c1) as Hlive1.
  { rewrite Hheap2, lookup_insert_ne, Hheap1 by done. apply lookup_insert_eq. }
  assert (heap w2 !! p2 = Some c2) as Hlive2.
  { rewrite Hheap2. apply lookup_insert_eq. }
  assert (delete p2 (delete p1 (heap w2)) = heap w) as Hback.
  { rewrite Hheap2, Hheap1. apply map_eq. intros k.
    destruct (decide (k = p2)) as [->|Hk2].
    - rewrite lookup_delete_eq. rewrite Hheap1 in Hfree2.
      by rewrite lookup_insert_ne in Hfree2.
    - rewrite lookup_delete_ne by done. destruct (decide (k = p1)) as [->|Hk1].
      + by rewrite lookup_delete_eq.
      + by rewrite lookup_delete_ne, !lookup_insert_ne. }
  exists w1, w2, (set_call proxy1 property1 value1 p1), (set_call proxy2 property2 value2 p2).
  split; [done|]. split; [done|]. split.
  { rewrite Hev2, Hev1, !remote_calls_app, Hcalls1, Hcalls2. by rewrite <- app_assoc. }
  split; [done|]. split.
  - eexists _, _. split; [by apply complete_live with (c := c1)|]. split.
    { apply complete_live with (c := c2). cbn [heap user_data set_call].
      by rewrite lookup_delete_ne. }
    cbn [heap events user_data set_call]. split; [done|].
    rewrite !invocations_app, !invocations_completion. by rewrite <- app_assoc.
  - eexists _, _. split; [by apply complete_live with (c := c2)|]. split.
    { apply complete_live with (c := c1). cbn [heap user_data set_call].
      by rewrite lookup_delete_ne. }
    cbn [heap events user_data set_call]. split.
    { by rewrite delete_delete. }
    rewrite !invocations_app, !invocations_completion. by rewrite <- app_assoc.
Qed.

(** X11: a property that the proxy has no cached value for is written
    nevertheless.  [set_remote_property] then passes NULL to GLib twice, to
    [g_variant_equal] and to [g_variant_unref], each of which fails its
    argument check; the proposed value is sent and nothing is released. *)
Theorem set_remote_property_without_cached_value
    (w : World) (proxy : GDBusProxy) (property : string) (value : GVariant)
    (cb : SetFunction) (data : gpointer) :
  cached_properties proxy !! property = None ->
  exists w1 new p,
    set_remote_property proxy property value cb data w = Returns tt w1 /\
    events w1 = events w ++ new /\
    criticals new = ["g_variant_equal"; "g_variant_unref"] /\
    remote_calls new = [set_call proxy property value p] /\
    released new = [].
Proof.
  intros Hnone.
  assert (cached_properties proxy !! property <> Some value) as Hne by by rewrite Hnone.
  eexists _, _, _. split; [by apply set_remote_property_changed|].
  cbn [events]. rewrite Hnone. split; [reflexivity|]. by cbn.
Qed.


(** ** [lookup_property] as a dictionary *)

Lemma list_to_map_first_occurrence (property : string) (value : GVariant)
    (pre post : list (string * GVariant)) :
  property ∉ pre.*1 ->
  (list_to_map (pre ++ (property, value) :: post) : gmap string GVariant) !! property
  = Some value.
Proof.
  induction pre as [|[k v] pre IH]; intros Hnot.
  - cbn. apply lookup_insert_eq.
  - rewrite fmap_cons, not_elem_of_cons in Hnot. destruct Hnot as [Hk Hpre].
    cbn. rewrite lookup_insert_ne by done. by apply IH.
Qed.

(** X13: [lookup_property] reads an [a{sv}] dictionary as the finite map of
    its entries in which, of several entries with one key, the first counts:
    for every list of entries and every key the call returns, and its result
    is the lookup of the key in that map.  The heap and the globals are left
    alone. *)
Theorem lookup_property_is_map_lookup
    (w : World) (entries : list (string * GVariant)) (property : string) :
  exists w',
    lookup_property (dict_sv entries) property w =
      Returns ((list_to_map entries : gmap string GVariant) !! property) w' /\
    heap w' = heap w /\
    global w' = global w.
Proof.
  destruct (first_occurrence_split property entries)
    as [Hnot | (pre & value & post & -> & Hpre)].
  - destruct (lookup_property_split w property entries Hnot) as [-> _].
    rewrite (not_elem_of_list_to_map_1 entries property Hnot). by eexists.
  - destruct (lookup_property_split w property pre Hpre) as [_ Hfound].
    destruct (Hfound value post) as [_ ->].
    rewrite (list_to_map_first_occurrence property value pre post Hpre). by eexists.
Qed.

Lemma freed_skipped (entries : list (string * GVariant)) : freed (skipped entries) = entries.*1.
Proof.
  induction entries as [|[k v] entries IH]; [done|].
  change (skipped ((k, v) :: entries)) with ([EvFree k; EvVariantUnref v] ++ skipped entries).
  unfold freed in *. rewrite omap_app, IH. reflexivity.
Qed.

Lemma released_skipped (entries : list (string * GVariant)) :
  released (skipped entries) = entries.*2.
Proof.
  induction entries as [|[k v] entries IH]; [done|].
  change (skipped ((k, v) :: entries)) with ([EvFree k; EvVariantUnref v] ++ skipped entries).
  unfold released in *. rewrite omap_app, IH. reflexivity.
Qed.

(** X14: [lookup_property] gives back what the iterator hands out.  With the
    key first bound behind the entries [pre], the keys of [pre] and the key
    found are freed, each once and in order, the values of [pre] are
    released, each once and in order, and the value found is not released:
    it is the caller's.  Without the key, all keys are freed and all values
    released. *)
Theorem lookup_property_releases_what_it_skips
    (w : World) (property : string) (pre : list (string * GVariant)) :
  property ∉ pre.*1 ->
  (exists new,
     lookup_property (dict_sv pre) property w = Returns None (with_events w new) /\
     freed new = pre.*1 /\ released new = pre.*2) /\
  forall (value : GVariant) (post : list (string * GVariant)),
    exists new,
      lookup_property (dict_sv (pre ++ (property, value) :: post)) property w =
        Returns (Some value) (with_events w new) /\
      freed new = pre.*1 ++ [property] /\
      released new = pre.*2.
Proof.
  intros Hnot. destruct (lookup_property_split w property pre Hnot) as [Hnone Hfound].
  split.
  - eexists. split; [exact Hnone|]. by rewrite freed_skipped, released_skipped.
  - intros value post. destruct (Hfound value post) as [_ Hrun].
    eexists. split; [exact Hrun|]. unfold freed, released.
    rewrite !omap_app. fold (freed (skipped pre)). fold (released (skipped pre)).
    rewrite freed_skipped, released_skipped. cbn. by rewrite app_nil_r.
Qed.

(** ** Echo suppression *)

(** X15: a value that has just arrived from the daemon is not sent back.
    Whatever the cache of the proxy held before, once it holds [value] for
    the property, [set_remote_property] with [value] issues no call and
    allocates nothing. *)
Theorem set_remote_property_does_not_echo
    (w : World) (iface : string) (cache : gmap string GVariant) (property : string)
    (value : GVariant) (cb : SetFunction) (data : gpointer) :
  let proxy := {| interface_name := iface;
                  cached_properties := <[property := value]> cache |} in
  exists w' new,
    set_remote_property proxy property value cb data w = Returns tt w' /\
    events w' = events w ++ new /\
    remote_calls new = [] /\
    heap w' = heap w.
Proof.
  intros proxy. eexists _, _. split.
  { apply set_remote_property_equal. apply lookup_insert_eq. }
  by cbn.
Qed.

(** ** The further properties at sample inputs *)

Lemma validation_callback_without_prefix_witness :
  let messages := Some {| success := Some "Connected"; failure := None;
                          error_table := Some sample_table_open |} in
  messages ≫= failure = None /\
  validation_callback 0 sample_proxy (Failed sample_error) messages sample_world =
  Returns tt (with_events sample_world
                [EvStderr (err_message sample_error +:+ newline); EvErrorFree sample_error]).
Proof.
  intros messages.
  assert (messages ≫= failure = None) as H by reflexivity.
  split; [exact H|].
  exact (validation_callback_without_prefix 0 sample_proxy sample_error messages
           sample_world H).
Defined.

Lemma validation_callback_without_table_witness :
  let m := {| success := None; failure := Some "Connection failed";
              error_table := None |} in
  failure m = Some "Connection failed" /\
  error_table m = None /\
  exists new,
    validation_callback 0 sample_proxy (Failed sample_error) (Some m) sample_world
      = Returns tt (with_events sample_world new) /\
    notifications new =
      (if notifications_disable (global sample_world) then []
       else [ {| title := "iwgtk"; body := "Connection failed";
                 priority := G_NOTIFICATION_PRIORITY_NORMAL |} ]) /\
    stderr_output new = [err_message sample_error +:+ newline].
Proof.
  intros m. split; [reflexivity|]. split; [reflexivity|].
  exact (validation_callback_without_table 0 sample_proxy sample_error m
           "Connection failed" sample_world eq_refl eq_refl).
Defined.

Lemma sample_reported_run :
  validation_callback 3 sample_proxy (Failed sample_error)
    (Some (sample_messages sample_table)) sample_world = Returns tt sample_reported.
Proof. vm_compute. reflexivity. Defined.

Lemma validation_callback_logs_every_error_witness :
  validation_callback 3 sample_proxy (Failed sample_error)
    (Some (sample_messages sample_table)) sample_world = Returns tt sample_reported /\
  exists before,
    events sample_reported = events sample_world ++ before ++
      [EvStderr (err_message sample_error +:+ newline); EvErrorFree sample_error] /\
    stderr_output before = [] /\
    heap sample_reported = heap sample_world.
Proof.
  split; [exact sample_reported_run|].
  exact (validation_callback_logs_every_error 3 sample_proxy sample_error
           (Some (sample_messages sample_table)) sample_world sample_reported
           sample_reported_run).
Defined.

Lemma validation_callback_respects_disable_witness :
  validation_callback 3 sample_proxy (Failed sample_error)
    (Some (sample_messages sample_table)) sample_world = Returns tt sample_reported /\
  exists new,
    events sample_reported = events sample_world ++ new /\
    (length (notifications new) <= 1)%nat /\
    (notifications_disable (global sample_world) = true -> notifications new = []).
Proof.
  split; [exact sample_reported_run|].
  exact (validation_callback_respects_disable 3 sample_proxy (Failed sample_error)
           (Some (sample_messages sample_table)) sample_world sample_reported
           sample_reported_run).
Defined.

Lemma validation_callback_frame_witness :
  validation_callback 3 sample_proxy (Failed sample_error)
    (Some (sample_messages sample_table)) sample_world = Returns tt sample_reported /\
  exists new,
    events sample_reported = events sample_world ++ new /\
    heap sample_reported = heap sample_world /\
    global sample_reported = global sample_world /\
    remote_calls new = [] /\
    invocations new = [].
Proof.
  split; [exact sample_reported_run|].
  exact (validation_callback_frame 3 sample_proxy (Failed sample_error)
           (Some (sample_messages sample_table)) sample_world sample_reported
           sample_reported_run).
Defined.

Lemma validation_callback_unterminated_table_witness :
  let err := {| err_domain := 7; err_code := 9; err_message := "Not supported" |} in
  let m := sample_messages sample_table_open in
  failure m = Some "Connection failed" /\
  error_table m = Some sample_table_open /\
  (forall e, e ∈ sample_table_open ->
     ~ (err_domain err = iwd_error_domain (global sample_world) /\ code e = err_code err) /\
     code e <> 0) /\
  (length sample_table_open < 3)%nat /\
  error_table_scan 3 (global sample_world) err sample_table_open 0 []
    = PastEnd (seq 0 (length sample_table_open)) /\
  validation_callback 3 sample_proxy (Failed err) (Some m) sample_world
    = Undefined OutOfBounds.
Proof.
  intros err m.
  assert (forall e, e ∈ sample_table_open ->
     ~ (err_domain err = iwd_error_domain (global sample_world) /\ code e = err_code err) /\
     code e <> 0) as H3.
  { intros e He. unfold sample_table_open in He.
    apply elem_of_cons in He as [->|He]; [split; [intros [_ ?]|]; discriminate|].
    apply elem_of_cons in He as [->|He]; [split; [intros [_ ?]|]; discriminate|].
    by apply elem_of_nil in He. }
  assert ((length sample_table_open < 3)%nat) as H4 by (cbn; lia).
  split; [reflexivity|]. split; [reflexivity|]. split; [exact H3|]. split; [exact H4|].
  exact (validation_callback_unterminated_table 3 sample_proxy err m "Connection failed"
           sample_table_open sample_world eq_refl eq_refl H3 H4).
Defined.


Lemma second_completion_is_undefined_witness :
  cached_properties sample_proxy !! "Powered" <> Some (VBoolean false) /\
  exists w1 new1 call w2,
    set_remote_property sample_proxy "Powered" (VBoolean false) 5%positive 42 sample_world
      = Returns tt w1 /\
    events w1 = events sample_world ++ new1 /\
    remote_calls new1 = [call] /\
    complete call (Reply (VTuple [])) w1 = Returns tt w2 /\
    complete call (Failed sample_error) w2 = Undefined InvalidPointer.
Proof.
  assert (cached_properties sample_proxy !! "Powered" <> Some (VBoolean false)) as H
    by (vm_compute; discriminate).
  split; [exact H|].
  exact (second_completion_is_undefined sample_world sample_proxy "Powered" (VBoolean false)
           5%positive 42 (Reply (VTuple [])) (Failed sample_error) H).
Defined.

Lemma overlapping_writes_are_independent_witness :
  cached_properties sample_proxy !! "Powered" <> Some (VBoolean false) /\
  cached_properties sample_proxy !! "Mode" <> Some (VString "ap") /\
  exists w1 w2 call1 call2,
    set_remote_property sample_proxy "Powered" (VBoolean false) 5%positive 42 sample_world
      = Returns tt w1 /\
    set_remote_property sample_proxy "Mode" (VString "ap") 6%positive 43 w1
      = Returns tt w2 /\
    remote_calls (events w2) = remote_calls (events sample_world) ++ [call1; call2] /\
    user_data call1 <> user_data call2 /\
    (exists wa wb,
       complete call1 (Failed sample_error) w2 = Returns tt wa /\
       complete call2 (Reply (VTuple [])) wa = Returns tt wb /\
       heap wb = heap sample_world /\
       invocations (events wb) = invocations (events w2) ++ [(5%positive, 42)] ++ []) /\
    (exists wa wb,
       complete call2 (Reply (VTuple [])) w2 = Returns tt wa /\
       complete call1 (Failed sample_error) wa = Returns tt wb /\
       heap wb = heap sample_world /\
       invocations (events wb) = invocations (events w2) ++ [] ++ [(5%positive, 42)]).
Proof.
  assert (cached_properties sample_proxy !! "Powered" <> Some (VBoolean false)) as H1
    by (vm_compute; discriminate).
  assert (cached_properties sample_proxy !! "Mode" <> Some (VString "ap")) as H2
    by (vm_compute; discriminate).
  split; [exact H1|]. split; [exact H2|].
  exact (overlapping_writes_are_independent sample_world
           sample_proxy "Powered" (VBoolean false) 5%positive 42 (Failed sample_error)
           sample_proxy "Mode" (VString "ap") 6%positive 43 (Reply (VTuple []))
           H1 H2).
Defined.

Lemma set_remote_property_without_cached_value_witness :
  cached_properties sample_proxy !! "Mode" = None /\
  exists w1 new p,
    set_remote_property sample_proxy "Mode" (VString "ap") 5%positive 42 sample_world
      = Returns tt w1 /\
    events w1 = events sample_world ++ new /\
    criticals new = ["g_variant_equal"; "g_variant_unref"] /\
    remote_calls new = [set_call sample_proxy "Mode" (VString "ap") p] /\
    released new = [].
Proof.
  assert (cached_properties sample_proxy !! "Mode" = None) as H by (vm_compute; reflexivity).
  split; [exact H|].
  exact (set_remote_property_without_cached_value sample_world sample_proxy "Mode"
           (VString "ap") 5%positive 42 H).
Defined.

Lemma lookup_property_releases_what_it_skips_witness :
  let pre := [("Name", VString "wlan0"); ("Powered", VBoolean true)] in
  ("Mode" ∉ pre.*1) /\
  (exists new,
     lookup_property (dict_sv pre) "Mode" sample_world
       = Returns None (with_events sample_world new) /\
     freed new = pre.*1 /\ released new = pre.*2) /\
  forall (value : GVariant) (post : list (string * GVariant)),
    exists new,
      lookup_property (dict_sv (pre ++ ("Mode", value) :: post)) "Mode" sample_world =
        Returns (Some value) (with_events sample_world new) /\
      freed new = pre.*1 ++ ["Mode"] /\
      released new = pre.*2.
Proof.
  intros pre.
  assert ("Mode" ∉ pre.*1) as H.
  { apply not_elem_of_cons. split; [discriminate|].
    apply not_elem_of_cons. split; [discriminate|]. apply not_elem_of_nil. }
  split; [exact H|].
  exact (lookup_property_releases_what_it_skips sample_world "Mode" pre H).
Defined.

(** ** [validation_callback_log] and [validation_callback] *)

(** X16: [validation_callback] without messages is [validation_callback_log]
    with the format "%s" and a line feed.  If [fprintf] with that format
    writes its argument and a line feed, then for a NULL [messages], and as
    well for messages with neither a success nor a failure text, the two
    functions do the same on every result: the reply is released, or the
    message of the error is printed and the error freed. *)
Theorem validation_callback_without_messages_is_log
    (vformat : string -> string -> string) (fuel : nat) (proxy : GDBusProxy)
    (res : GAsyncResult) (messages : option CallbackMessages) (w : World) :
  (forall s, vformat ("%s" +:+ newline) s = s +:+ newline) ->
  messages ≫= success = None ->
  messages ≫= failure = None ->
  validation_callback fuel proxy res messages w =
  validation_callback_log vformat proxy res ("%s" +:+ newline) w.
Proof.
  intros Hformat Hsuccess Hfailure. unfold validation_callback, validation_callback_log.
  destruct res as [ret|err]; [|rewrite Hformat].
  - destruct messages as [m|]; cbn [mbind option_bind] in Hsuccess; [rewrite Hsuccess|];
      by run.
  - destruct messages as [m|]; cbn [mbind option_bind] in Hfailure; [rewrite Hfailure|];
      by run.
Qed.

Lemma validation_callback_without_messages_is_log_witness :
  (forall s, sample_format ("%s" +:+ newline) s = s +:+ newline) /\
  (None : option CallbackMessages) ≫= success = None /\
  (None : option CallbackMessages) ≫= failure = None /\
  validation_callback 0 sample_proxy (Failed sample_error) None sample_world =
  validation_callback_log sample_format sample_proxy (Failed sample_error)
    ("%s" +:+ newline) sample_world.
Proof.
  assert (forall s, sample_format ("%s" +:+ newline) s = s +:+ newline) as H
    by (intros s; reflexivity).
  split; [exact H|]. split; [reflexivity|]. split; [reflexivity|].
  exact (validation_callback_without_messages_is_log sample_format 0 sample_proxy
           (Failed sample_error) None sample_world H eq_refl eq_refl).
Defined.

(** ** [grid_column_set_alignment] *)

(** A grid has finitely many children, so every column has a first row
    without one. *)
Lemma column_first_gap (grid : gmap (Z * Z) positive) (col : Z) :
  exists n : nat,
    (n <= size grid)%nat /\
    grid !! (col, Z.of_nat n) = None /\
    forall j : nat, (j < n)%nat -> is_Some (grid !! (col, Z.of_nat j)).
Proof.
  assert (forall k : nat,
            (exists n : nat, (n < k)%nat /\ grid !! (col, Z.of_nat n) = None /\
               forall j : nat, (j < n)%nat -> is_Some (grid !! (col, Z.of_nat j))) \/
            (forall j : nat, (j < k)%nat -> is_Some (grid !! (col, Z.of_nat j)))) as Hsearch.
  { induction k as [|k [Hgap | Hfull]].
    - right. intros j Hj. lia.
    - left. destruct Hgap as (n & Hn & Hrest). exists n. split; [lia | done].
    - destruct (grid !! (col, Z.of_nat k)) as [c|] eqn:Hk.
      + right. intros j Hj. destruct (decide (j = k)) as [->|Hne]; [by rewrite Hk|].
        apply Hfull. lia.
      + left. exists k. split; [lia|]. done. }
  destruct (Hsearch (S (size grid))) as [(n & Hn & Hrest) | Hfull].
  { exists n. split; [lia | done]. }
  exfalso.
  set (cells := (fun j : nat => (col, Z.of_nat j)) <$> seq 0 (S (size grid))).
  assert (NoDup cells) as Hnodup.
  { apply NoDup_fmap_2; [|apply NoDup_seq]. intros j1 j2 [= H]. lia. }
  assert ((list_to_set cells : gset (Z * Z)) ⊆ dom grid) as Hsub.
  { intros cell [j [-> Hj%elem_of_seq]]%elem_of_list_to_set%list_elem_of_fmap.
    apply elem_of_dom, Hfull. lia. }
  apply subseteq_size in Hsub.
  rewrite size_list_to_set, size_dom in Hsub by done.
  unfold cells in Hsub. rewrite length_fmap, length_seq in Hsub. lia.
Qed.

Lemma in_rows_dec (grid : gmap (Z * Z) positive) col (i n : nat) widget :
  in_rows grid col i n widget \/ ~ in_rows grid col i n widget.
Proof.
  induction n as [|n [Hin | Hout]].
  - right. intros (j & Hj & _). lia.
  - left. destruct Hin as (j & Hj & Hw). exists j. split; [lia | done].
  - destruct (decide (grid !! (col, Z.of_nat (i + n)) = Some widget)) as [Hw | Hw].
    + left. exists (i + n)%nat. split; [lia | done].
    + right. intros (j & Hj & Hjw). destruct (decide (j = (i + n)%nat)) as [->|Hne]; [done|].
      apply Hout. exists j. split; [lia | done].
Qed.

(** With children in the rows [i], ..., [i + n - 1] and none in row [i + n],
    the loop sets the alignment of exactly these children. *)
Lemma grid_column_set_alignment_loop_run (grid : gmap (Z * Z) positive) col align (n : nat) :
  forall (i : nat) (halign : gmap positive GtkAlign) (fuel : nat),
    (forall j : nat, (i <= j < i + n)%nat -> is_Some (grid !! (col, Z.of_nat j))) ->
    grid !! (col, Z.of_nat (i + n)) = None ->
    (n < fuel)%nat ->
    exists halign' : gmap positive GtkAlign,
      grid_column_set_alignment_loop fuel grid col align i halign = Some halign' /\
      forall widget,
        (in_rows grid col i n widget -> halign' !! widget = Some align) /\
        (~ in_rows grid col i n widget -> halign' !! widget = halign !! widget).
Proof.
  induction n as [|n IH]; intros i halign fuel Hrows Hgap Hfuel.
  - destruct fuel as [|fuel]; [lia|]. cbn [grid_column_set_alignment_loop].
    unfold gtk_grid_get_child_at. rewrite Nat.add_0_r in Hgap. rewrite Hgap.
    exists halign. split; [done|]. intros widget. split; [|done].
    intros (j & Hj & _). lia.
  - destruct fuel as [|fuel]; [lia|]. cbn [grid_column_set_alignment_loop].
    unfold gtk_grid_get_child_at.
    destruct (Hrows i) as [cell Hcell]; [lia|]. rewrite Hcell.
    destruct (IH (S i) (gtk_widget_set_halign cell align halign) fuel)
      as (halign' & Hrun & Hset); [| |lia|].
    { intros j Hj. apply Hrows. lia. }
    { by replace (S i + n)%nat with (i + S n)%nat by lia. }
    exists halign'. split; [done|]. intros widget. split.
    + intros (j & Hj & Hw). destruct (decide (j = i)) as [->|Hne].
      * assert (widget = cell) as -> by congruence.
        destruct (in_rows_dec grid col (S i) n cell) as [Hin|Hout].
        -- by apply Hset.
        -- destruct (Hset cell) as [_ Hkeep]. rewrite Hkeep by done. apply lookup_insert_eq.
      * apply Hset. exists j. split; [lia | done].
    + intros Hout. destruct (Hset widget) as [_ Hkeep]. rewrite Hkeep.
      * apply lookup_insert_ne. intros ->. apply Hout. exists i. split; [lia | done].
      * intros (j & Hj & Hw). apply Hout. exists j. split; [lia | done].
Qed.

Lemma grid_column_set_alignment_loop_starved (grid : gmap (Z * Z) positive) col align :
  forall (fuel i : nat) (halign : gmap positive GtkAlign),
    (forall j : nat, (i <= j < i + fuel)%nat -> is_Some (grid !! (col, Z.of_nat j))) ->
    grid_column_set_alignment_loop fuel grid col align i halign = None.
Proof.
  induction fuel as [|fuel IH]; intros i halign Hrows; [done|].
  cbn [grid_column_set_alignment_loop]. unfold gtk_grid_get_child_at.
  destruct (Hrows i) as [cell ->]; [lia|]. apply IH. intros j Hj. apply Hrows. lia.
Qed.

(** X17: [grid_column_set_alignment] ends on every grid, and it aligns the
    top of the column only.  With [n] the first row of the column that has
    no child, at most the number of cells of the grid, the loop stops at row
    [n]; the children in the rows above get the alignment, and every other
    widget keeps the alignment it had, the children of the column that lie
    below row [n] among them. *)
Theorem grid_column_set_alignment_aligns_top_of_column
    (grid : gmap (Z * Z) positive) (col : Z) (align : GtkAlign)
    (halign : gmap positive GtkAlign) :
  exists n : nat,
    (n <= size grid)%nat /\
    grid !! (col, Z.of_nat n) = None /\
    (forall j : nat, (j < n)%nat -> is_Some (grid !! (col, Z.of_nat j))) /\
    forall fuel : nat, (n < fuel)%nat ->
      exists halign' : gmap positive GtkAlign,
        grid_column_set_alignment fuel grid col align halign = Some halign' /\
        forall widget : positive,
          ((exists j : nat, (j < n)%nat /\ grid !! (col, Z.of_nat j) = Some widget) ->
           halign' !! widget = Some align) /\
          ((forall j : nat, (j < n)%nat -> grid !! (col, Z.of_nat j) <> Some widget) ->
           halign' !! widget = halign !! widget).
Proof.
  destruct (column_first_gap grid col) as (n & Hsize & Hgap & Hrows).
  exists n. split; [done|]. split; [done|]. split; [done|]. intros fuel Hfuel.
  destruct (grid_column_set_alignment_loop_run grid col align n 0%nat halign fuel)
    as (halign' & Hrun & Hset); [| done | done |].
  { intros j Hj. apply Hrows. lia. }
  exists halign'. split; [done|]. intros widget. split.
  - intros (j & Hj & Hw). apply Hset. exists j. split; [lia | done].
  - intros Hout. apply Hset. intros (j & Hj & Hw). apply (Hout j); [lia | done].
Qed.

(** X18: aligning a column twice is the same as aligning it once: a run of
    [grid_column_set_alignment] that has ended leaves alignments on which
    the same call, with the same fuel, ends and changes nothing. *)
Theorem grid_column_set_alignment_idempotent
    (fuel : nat) (grid : gmap (Z * Z) positive) (col : Z) (align : GtkAlign)
    (halign halign' : gmap positive GtkAlign) :
  grid_column_set_alignment fuel grid col align halign = Some halign' ->
  grid_column_set_alignment fuel grid col align halign' = Some halign'.
Proof.
  intros Hrun. destruct (column_first_gap grid col) as (n & _ & Hgap & Hrows).
  assert (n < fuel)%nat as Hfuel.
  { destruct (decide (n < fuel)%nat) as [|Hle]; [done|]. exfalso.
    unfold grid_column_set_alignment in Hrun.
    rewrite grid_column_set_alignment_loop_starved in Hrun; [done|].
    intros j Hj. apply Hrows. lia. }
  assert (forall j : nat, (0 <= j < 0 + n)%nat -> is_Some (grid !! (col, Z.of_nat j))) as Hrows'.
  { intros j Hj. apply Hrows. lia. }
  destruct (grid_column_set_alignment_loop_run grid col align n 0%nat halign fuel
              Hrows' Hgap Hfuel) as (h1 & Hrun1 & Hset1).
  destruct (grid_column_set_alignment_loop_run grid col align n 0%nat halign' fuel
              Hrows' Hgap Hfuel) as (h2 & Hrun2 & Hset2).
  unfold grid_column_set_alignment in *. rewrite Hrun1 in Hrun. injection Hrun as ->.
  rewrite Hrun2. f_equal. apply map_eq. intros widget.
  destruct (in_rows_dec grid col 0 n widget) as [Hin | Hout].
  - destruct (Hset1 widget) as [H1 _]. destruct (Hset2 widget) as [H2 _].
    by rewrite H1, H2.
  - by apply Hset2.
Qed.

Lemma grid_column_set_alignment_idempotent_witness :
  let halign' : gmap positive GtkAlign :=
    {[ 1%positive := GTK_ALIGN_END; 2%positive := GTK_ALIGN_END ]} in
  grid_column_set_alignment 5 sample_grid 0 GTK_ALIGN_END ∅ = Some halign' /\
  grid_column_set_alignment 5 sample_grid 0 GTK_ALIGN_END halign' = Some halign'.
Proof.
  intros halign'.
  assert (grid_column_set_alignment 5 sample_grid 0 GTK_ALIGN_END ∅ = Some halign') as H
    by (vm_compute; reflexivity).
  split; [exact H|].
  exact (grid_column_set_alignment_idempotent 5 sample_grid 0 GTK_ALIGN_END ∅ halign' H).
Defined.
